(** * Payroll pipeline: timesheet extraction, wage calculation, orchestration

    A shallow embedding of the Python sources
    - [agents/agent2_calculator.py]  (class [WageCalculatorAgent]),
    - [agents/agent1_parser.py]      (class [TimesheetParserAgent]),
    - [workflow.py]                  (class [TimesheetWorkflow]),
    - [models.py]                    (the pydantic records),
    - [agents/agent3_pdf_generator.py] (file names and [process] of
      [SalarySlipGeneratorAgent]; the drawing of the PDF is kept abstract),
    - [main.py]                      (the batch loop),
    - [generate_dummy_timesheets.py] (the sheet [create_excel_timesheet]
      writes),
    together with the properties stated about them.

    Python's [float] is IEEE-754 binary64.  It is modelled by the Standard
    Library's executable specification [spec_float] with [prec = 53] and
    [emax = 1024]; every arithmetic operation below is the correctly rounded
    IEEE operation, so that a value computed here is the value CPython
    computes. *)

From Stdlib Require Import ZArith List String Ascii Bool Lia SpecFloat DecimalString.
Import ListNotations.
Local Open Scope string_scope.
Local Open Scope Z_scope.

(** ** Python floats *)

Module Float.

Definition prec : Z := 53.
Definition emax : Z := 1024.

Definition float : Type := spec_float.

Definition zero : float := S754_zero false.
Definition infinity : float := S754_infinity false.
Definition nan : float := S754_nan.

Definition add : float -> float -> float := SFadd prec emax.
Definition sub : float -> float -> float := SFsub prec emax.
Definition mul : float -> float -> float := SFmul prec emax.

(** [x < y], [x <= y], [x > y], [x >= y] and [x == y] of Python; every
    comparison with a NaN is [false]. *)
Definition ltb (x y : float) : bool := SFltb x y.
Definition leb (x y : float) : bool := SFleb x y.
Definition gtb (x y : float) : bool := SFltb y x.
Definition geb (x y : float) : bool := SFleb y x.
Definition eqb (x y : float) : bool := SFeqb x y.

(** The floats Python can hold: canonical mantissa and exponent. *)
Definition valid (x : float) : bool := valid_binary prec emax x.

(** [float(n)] for a Python int [n] (exact when [|n| < 2^53]). *)
Definition of_Z (n : Z) : float := binary_normalize prec emax n 0 false.

(** The binary64 nearest to the fraction [n / d] (ties to even), with
    sign [s]: one correctly rounded division of the two integers. *)
Definition nearest_ratio (s : bool) (n d : positive) : float :=
  let '(q, e, l) := SFdiv_core_binary prec emax (Zpos n) 0 (Zpos d) 0 in
  binary_round_aux prec emax s q e l.

(** A decimal literal [n * 10^-k] as the Python parser reads it, for
    instance [decimal 62 3] for [0.062]. *)
Definition decimal (n : positive) (k : nat) : float :=
  nearest_ratio false n (Z.to_pos (10 ^ Z.of_nat k)).

(** [min(a, b)] of Python: [b] replaces [a] only when [b < a]. *)
Definition min (a b : float) : float := if ltb b a then b else a.

(** The integer nearest to [a / b] for [0 <= a] and [0 < b], a tie going
    to the even neighbour. *)
Definition div_half_even (a b : Z) : Z :=
  let q := a / b in
  match (2 * (a mod b)) ?= b with
  | Lt => q
  | Gt => q + 1
  | Eq => if Z.even q then q else q + 1
  end.

(** The number of cents nearest to the exact value [m * 2^e]. *)
Definition cents (m : positive) (e : Z) : Z :=
  match e with
  | Zneg p => div_half_even (Zpos m * 100) (2 ^ Zpos p)
  | _ => Zpos m * 100 * 2 ^ e
  end.

(** [round(x, 2)] of CPython: the exact value of [x] is rounded to two
    decimal places, half to even, and the decimal obtained is converted
    back to the nearest float.  NaN, the infinities and the zeros round to
    themselves; a value that rounds to no cent keeps its sign. *)
Definition round2 (x : float) : float :=
  match x with
  | S754_finite s m e =>
      match cents m e with
      | Zpos n => nearest_ratio s n 100
      | _ => S754_zero s
      end
  | _ => x
  end.

End Float.

Import Float.

Declare Scope float_scope.
Delimit Scope float_scope with float.
Infix "+" := Float.add : float_scope.
Infix "-" := Float.sub : float_scope.
Infix "*" := Float.mul : float_scope.
Infix "<?" := Float.ltb : float_scope.
Infix "<=?" := Float.leb : float_scope.
Infix ">?" := Float.gtb : float_scope.
Infix ">=?" := Float.geb : float_scope.

(** ** Exceptions and results

    The agents wrap their bodies in [try ... except Exception as e] and hand
    back a dictionary; inside the body an exception aborts the rest. *)

Record exn := { exn_class : string; exn_msg : string }.

Inductive res (A : Type) : Type :=
| Ok (a : A)
| Raise (e : exn).
Arguments Ok {A} a.
Arguments Raise {A} e.

Definition bind {A B : Type} (r : res A) (k : A -> res B) : res B :=
  match r with
  | Ok a => k a
  | Raise e => Raise e
  end.

Notation "x <- r ;; k" := (bind r (fun x => k))
  (at level 61, r at next level, right associativity).

Definition TypeError (msg : string) : exn := {| exn_class := "TypeError"; exn_msg := msg |}.
Definition ValueError (msg : string) : exn := {| exn_class := "ValueError"; exn_msg := msg |}.
Definition IndexError (msg : string) : exn := {| exn_class := "IndexError"; exn_msg := msg |}.
Definition KeyError (msg : string) : exn := {| exn_class := "KeyError"; exn_msg := msg |}.
Definition AttributeError (msg : string) : exn :=
  {| exn_class := "AttributeError"; exn_msg := msg |}.

(** ** The records of [models.py] *)

Record EmployeeInfo := {
  employee_id : string;
  name : string;
  department : string;
  designation : string;
  email : string;
  bank_account : string
}.

Record WorkingHours := {
  regular_hours : float;
  overtime_hours : float;
  leave_days : Z;
  holiday_work_hours : float
}.

Record PayPeriod := { start_date : string; end_date : string }.

Record TimesheetData := {
  employee : EmployeeInfo;
  period : PayPeriod;
  hours : WorkingHours;
  hourly_rate : option float;
  overtime_rate : option float
}.

Record GrossSalary := {
  base_pay : float;
  overtime_pay : float;
  allowances : float;
  bonuses : float;
  total_gross : float
}.

Record Deductions := {
  income_tax : float;
  social_security : float;
  insurance : float;
  provident_fund : float;
  other_deductions : float;
  total_deductions : float
}.

Record SalaryCalculation := {
  calc_employee_id : string;
  gross_salary : GrossSalary;
  deductions : Deductions;
  net_salary : float;
  calculation_date : string
}.

(** The dictionary an agent returns: [{"success", "data", "error"}]. *)
Record agent_result (A : Type) := {
  success : bool;
  data : option A;
  error : option string
}.
Arguments success {A} _.
Arguments data {A} _.
Arguments error {A} _.

(** [try: ... return {"success": True, "data": d, "error": None}
     except Exception as e: return {"success": False, "data": None, "error": str(e)}] *)
Definition try_except {A : Type} (body : res A) : agent_result A :=
  match body with
  | Ok d => {| success := true; data := Some d; error := None |}
  | Raise e => {| success := false; data := None; error := Some (exn_msg e) |}
  end.

(** ** The wage calculator ([agents/agent2_calculator.py]) *)

Module Calculator.

Local Open Scope float_scope.

(** One entry of [self.tax_brackets]. *)
Record bracket := { limit : float; rate : float }.

(** [self.tax_brackets]; the integer limits are compared and subtracted
    as the floats of the same value. *)
Definition tax_brackets : list bracket :=
  [ {| limit := of_Z 1000; rate := decimal 10 2 |};
    {| limit := of_Z 3000; rate := decimal 12 2 |};
    {| limit := of_Z 5000; rate := decimal 22 2 |};
    {| limit := infinity; rate := decimal 24 2 |} ].

(** The [for bracket in self.tax_brackets] loop, with its two locals
    [tax] and [previous_limit]; [break] returns the accumulated tax. *)
Fixpoint tax_loop (brackets : list bracket) (gross_salary tax previous_limit : float)
  : float :=
  match brackets with
  | [] => tax
  | b :: rest =>
      if gross_salary >? previous_limit then
        let taxable_in_bracket :=
          Float.min (gross_salary - previous_limit) (limit b - previous_limit) in
        let tax := tax + taxable_in_bracket * rate b in
        let previous_limit := limit b in
        if gross_salary <=? limit b then tax
        else tax_loop rest gross_salary tax previous_limit
      else tax_loop rest gross_salary tax previous_limit
  end.

Definition progressive_tax (brackets : list bracket) (gross_salary : float) : float :=
  round2 (tax_loop brackets gross_salary zero (of_Z 0)).

Definition calculate_progressive_tax (gross_salary : float) : float :=
  progressive_tax tax_brackets gross_salary.

(** The variant the specification compares the loop with: the same
    body, leaving the loop on [gross_salary < bracket["limit"]]. *)
Fixpoint tax_loop_strict (brackets : list bracket) (gross_salary tax previous_limit : float)
  : float :=
  match brackets with
  | [] => tax
  | b :: rest =>
      if gross_salary >? previous_limit then
        let taxable_in_bracket :=
          Float.min (gross_salary - previous_limit) (limit b - previous_limit) in
        let tax := tax + taxable_in_bracket * rate b in
        let previous_limit := limit b in
        if gross_salary <? limit b then tax
        else tax_loop_strict rest gross_salary tax previous_limit
      else tax_loop_strict rest gross_salary tax previous_limit
  end.

Definition calculate_progressive_tax_strict (gross_salary : float) : float :=
  round2 (tax_loop_strict tax_brackets gross_salary zero (of_Z 0)).

(** The deduction rates set in [__init__]. *)
Definition social_security_rate : float := decimal 62 3.
Definition medicare_rate : float := decimal 145 4.
Definition insurance_flat : float := of_Z 100.
Definition provident_fund_rate : float := decimal 5 2.

(** [float * None] in [calculate_gross_salary]. *)
Definition mul_none : exn :=
  TypeError "unsupported operand type(s) for *: 'float' and 'NoneType'".

Definition calculate_gross_salary (timesheet_data : TimesheetData) : res GrossSalary :=
  match hourly_rate timesheet_data with
  | None => Raise mul_none
  | Some hourly =>
      let base_pay := regular_hours (hours timesheet_data) * hourly in
      match overtime_rate timesheet_data with
      | None => Raise mul_none
      | Some overtime =>
          let overtime_pay := overtime_hours (hours timesheet_data) * overtime in
          let holiday_bonus :=
            holiday_work_hours (hours timesheet_data) * hourly * decimal 5 1 in
          let allowances := of_Z 500 in
          let bonuses :=
            if regular_hours (hours timesheet_data) >=? of_Z 160
            then of_Z 200 else zero in
          let total_gross :=
            base_pay + overtime_pay + holiday_bonus + allowances + bonuses in
          Ok {| base_pay := round2 base_pay;
                overtime_pay := round2 overtime_pay;
                allowances := round2 (allowances + holiday_bonus);
                bonuses := round2 bonuses;
                total_gross := round2 total_gross |}
      end
  end.

Definition calculate_deductions (gross_salary : float) : Deductions :=
  let income_tax := calculate_progressive_tax gross_salary in
  let social_security := gross_salary * social_security_rate in
  let medicare := gross_salary * medicare_rate in
  let fica_total := social_security + medicare in
  let insurance := insurance_flat in
  let provident_fund := gross_salary * provident_fund_rate in
  let other_deductions := zero in
  let total_deductions :=
    income_tax + fica_total + insurance + provident_fund + other_deductions in
  {| income_tax := round2 income_tax;
     social_security := round2 fica_total;
     insurance := round2 insurance;
     provident_fund := round2 provident_fund;
     other_deductions := round2 other_deductions;
     total_deductions := round2 total_deductions |}.

(** The body of [process] inside [try].  [today] is what
    [datetime.now().strftime("%Y-%m-%d")] returns when the run takes
    place; the argument is [None] when the caller has no timesheet. *)
Definition process_body (today : string) (timesheet_data : option TimesheetData)
  : res SalaryCalculation :=
  match timesheet_data with
  | None => Raise (AttributeError "'NoneType' object has no attribute 'hours'")
  | Some timesheet_data =>
      gross_salary <- calculate_gross_salary timesheet_data ;;
      let deductions := calculate_deductions (total_gross gross_salary) in
      let net_salary := total_gross gross_salary - total_deductions deductions in
      Ok {| calc_employee_id := employee_id (employee timesheet_data);
            gross_salary := gross_salary;
            deductions := deductions;
            net_salary := round2 net_salary;
            calculation_date := today |}
  end.

Definition process (today : string) (timesheet_data : option TimesheetData)
  : agent_result SalaryCalculation :=
  try_except (process_body today timesheet_data).

End Calculator.

Import Calculator.

(** ** Python strings *)

Module PyStr.

Local Open Scope char_scope.

Definition is_upper (c : ascii) : bool :=
  let n := nat_of_ascii c in (65 <=? n)%nat && (n <=? 90)%nat.

Definition lower_char (c : ascii) : ascii :=
  if is_upper c then ascii_of_nat (nat_of_ascii c + 32) else c.

(** [s.lower()] on the ASCII letters. *)
Fixpoint lower (s : string) : string :=
  match s with
  | EmptyString => EmptyString
  | String c r => String (lower_char c) (lower r)
  end.

(** [s.startswith(p)]. *)
Definition startswith (s p : string) : bool := String.prefix p s.

Definition is_digit (c : ascii) : bool :=
  let n := nat_of_ascii c in (48 <=? n)%nat && (n <=? 57)%nat.

Definition digit_value (c : ascii) : Z := Z.of_nat (nat_of_ascii c) - 48.

(** The characters [str.strip()] removes. *)
Definition is_space (c : ascii) : bool :=
  let n := nat_of_ascii c in
  (n =? 32)%nat || ((9 <=? n)%nat && (n <=? 13)%nat) || ((28 <=? n)%nat && (n <=? 31)%nat).

Fixpoint lstrip (l : list ascii) : list ascii :=
  match l with
  | c :: r => if is_space c then lstrip r else l
  | [] => []
  end.

Definition strip (l : list ascii) : list ascii := rev (lstrip (rev (lstrip l))).

(** [digit (["_"] digit)*] once its first digit is read: the value so
    far, the number of digits read, and what is left. *)
Fixpoint digits_tail (acc : Z) (count : nat) (l : list ascii) : Z * nat * list ascii :=
  match l with
  | c :: r =>
      if is_digit c then digits_tail (10 * acc + digit_value c) (S count) r
      else if Ascii.eqb c "_" then
        match r with
        | d :: r' =>
            if is_digit d then digits_tail (10 * acc + digit_value d) (S count) r'
            else (acc, count, l)
        | [] => (acc, count, l)
        end
      else (acc, count, l)
  | [] => (acc, count, l)
  end.

(** [digitpart], continuing from the value [acc]. *)
Definition digitpart (acc : Z) (l : list ascii) : option (Z * nat * list ascii) :=
  match l with
  | c :: r => if is_digit c then Some (digits_tail (10 * acc + digit_value c) 1 r) else None
  | [] => None
  end.

Definition sign (l : list ascii) : bool * list ascii :=
  match l with
  | "-" :: r => (true, r)
  | "+" :: r => (false, r)
  | _ => (false, l)
  end.

(** [number ::= [digitpart] "." digitpart | digitpart ["."]]: the digits
    as one integer and the count of those after the point. *)
Definition number (l : list ascii) : option (Z * nat * list ascii) :=
  match digitpart 0 l with
  | Some (n, _, "." :: r) =>
      match digitpart n r with
      | Some (n', k, r') => Some (n', k, r')
      | None => Some (n, O, r)
      end
  | Some (n, _, r) => Some (n, O, r)
  | None =>
      match l with
      | "." :: r => digitpart 0 r
      | _ => None
      end
  end.

(** [exponent ::= ("e" | "E") [sign] digitpart], or nothing. *)
Definition exponent (l : list ascii) : option Z :=
  match l with
  | [] => Some 0
  | c :: r =>
      if Ascii.eqb (lower_char c) "e" then
        let '(neg, r) := sign r in
        match digitpart 0 r with
        | Some (x, _, []) => Some (if neg then - x else x)
        | _ => None
        end
      else None
  end.

(** The float nearest to [n * 10^x], with sign [s]. *)
Definition scaled (s : bool) (n x : Z) : float :=
  match n with
  | Zpos m =>
      match x with
      | Zneg d => nearest_ratio s m (Z.to_pos (10 ^ Zpos d))
      | _ => binary_normalize prec emax (if s then - (n * 10 ^ x) else n * 10 ^ x) 0 s
      end
  | _ => S754_zero s
  end.

(** [float(s)] for a string: [None] stands for the [ValueError]. *)
Definition float_of_string (s : string) : option float :=
  let '(neg, body) := sign (strip (list_ascii_of_string s)) in
  let word := lower (string_of_list_ascii body) in
  if (String.eqb word "inf" || String.eqb word "infinity")%bool
  then Some (S754_infinity neg)
  else if String.eqb word "nan" then Some nan
  else
    match number body with
    | Some (n, k, rest) =>
        match exponent rest with
        | Some x => Some (scaled neg n (x - Z.of_nat k))
        | None => None
        end
    | None => None
    end.

(** [os.path.splitext(file_path)[1]] *)

(** What follows the last ["/"]. *)
Fixpoint basename (acc l : list ascii) : list ascii :=
  match l with
  | [] => acc
  | c :: r => if Ascii.eqb c "/" then basename r r else basename acc r
  end.

Fixpoint skip_dots (l : list ascii) : list ascii :=
  match l with
  | c :: r => if Ascii.eqb c "." then skip_dots r else l
  | [] => []
  end.

(** From the last ["."] on, or nothing when there is none. *)
Fixpoint last_dot (acc l : list ascii) : list ascii :=
  match l with
  | [] => acc
  | c :: r => if Ascii.eqb c "." then last_dot l r else last_dot acc r
  end.

Definition extension (file_path : string) : string :=
  let l := list_ascii_of_string file_path in
  string_of_list_ascii (last_dot [] (skip_dots (basename l l))).

End PyStr.

(** ** The timesheet parser ([agents/agent1_parser.py]) *)

Module Parser.

(** *** The document

    A cell as pandas hands it to the code: [nan] for a blank cell, a
    [str] for a text cell, a number for a numeric cell.  A numeric cell
    carries the text [str()] prints for it; an integer-valued cell, which
    is read as an [int], is held as the float of the same value. *)
Inductive cell :=
| CNaN
| CStr (s : string)
| CNum (x : float) (text : string).

(** The rows of a worksheet, top to bottom, each padded to the sheet's
    width. *)
Definition sheet : Type := list (list cell).

(** What a path holds: something that is no workbook, or a workbook with
    its named sheets. *)
Inductive file :=
| NotAWorkbook
| Workbook (sheets : list (string * sheet)).

(** [None] at a path: nothing exists there. *)
Definition filesystem : Type := string -> option file.

Record DataFrame := { columns : list cell; rows : list (list cell) }.

Fixpoint lookup_sheet (sheet_name : string) (sheets : list (string * sheet)) : option sheet :=
  match sheets with
  | [] => None
  | (n, sh) :: rest => if String.eqb n sheet_name then Some sh else lookup_sheet sheet_name rest
  end.

(** [pd.read_excel(file_path, sheet_name='Timesheet', skiprows=.., nrows=..)]:
    the rows skipped are dropped, the next row is the header, and at most
    [nrows] rows after it are the data.  [skiprows=None] skips nothing. *)
Definition read_excel (f : file) (skiprows : option nat) (nrows : option nat) : res DataFrame :=
  match f with
  | NotAWorkbook => Raise (ValueError "Excel file format cannot be determined, you must specify an engine manually.")
  | Workbook sheets =>
      match lookup_sheet "Timesheet" sheets with
      | None => Raise (ValueError "Worksheet named 'Timesheet' not found")
      | Some sh =>
          let kept := match skiprows with Some k => skipn k sh | None => sh end in
          match kept with
          | [] => Ok {| columns := []; rows := [] |}
          | header :: body =>
              Ok {| columns := header;
                    rows := match nrows with Some n => firstn n body | None => body end |}
          end
      end
  end.

Definition out_of_bounds : exn := IndexError "single positional indexer is out-of-bounds".

(** [df.iloc[i, j]]. *)
Definition iloc (df : DataFrame) (i j : nat) : res cell :=
  match nth_error (rows df) i with
  | None => Raise out_of_bounds
  | Some r => if (j <? List.length (columns df))%nat then Ok (nth j r CNaN) else Raise out_of_bounds
  end.

(** [df.iloc[i]]: one row. *)
Definition iloc_row (df : DataFrame) (i : nat) : res (list cell) :=
  match nth_error (rows df) i with
  | None => Raise out_of_bounds
  | Some r => Ok r
  end.

Definition is_nan (x : float) : bool :=
  match x with S754_nan => true | _ => false end.

(** [pd.notna(c)]: a number that is NaN counts as missing too. *)
Definition notna (c : cell) : bool :=
  match c with
  | CNaN => false
  | CStr _ => true
  | CNum x _ => negb (is_nan x)
  end.

(** An integer-valued numeric cell. *)
Definition CInt (n : Z) : cell := CNum (of_Z n) (NilZero.string_of_int (Z.to_int n)).

(** [str(c)]. *)
Definition str (c : cell) : string :=
  match c with
  | CNaN => "nan"
  | CStr s => s
  | CNum _ text => text
  end.

(** [repr(c)], for messages; the text of a string is not escaped. *)
Definition repr (c : cell) : string :=
  match c with
  | CStr s => "'" ++ s ++ "'"
  | _ => str c
  end.

(** [c == s] for a string [s]. *)
Definition is_str (s : string) (c : cell) : bool :=
  match c with CStr t => String.eqb t s | _ => false end.

(** [float(c)]. *)
Definition to_float (c : cell) : res float :=
  match c with
  | CNaN => Ok nan
  | CNum x _ => Ok x
  | CStr s =>
      match PyStr.float_of_string s with
      | Some x => Ok x
      | None => Raise (ValueError ("could not convert string to float: " ++ repr c))
      end
  end.

(** The index of the first row that satisfies [p]:
    [for idx in range(len(df)): if p(df.iloc[idx, 0]): ...; break]. *)
Fixpoint first_row (p : cell -> bool) (rs : list (list cell)) (idx : nat) : option nat :=
  match rs with
  | [] => None
  | r :: rest => if p (nth 0 r CNaN) then Some idx else first_row p rest (S idx)
  end.

Definition is_date_anchor (c : cell) : bool :=
  String.eqb (PyStr.lower (str c)) "date".

Definition is_summary_anchor (c : cell) : bool :=
  PyStr.startswith (str c) "Total Regular Hours".

(** *** The employee dictionary *)

(** [employee_data]: the newest entry first. *)
Definition dict : Type := list (cell * string).

(** [employee_data.get(key, default)] for a string key. *)
Fixpoint get (d : dict) (key default : string) : string :=
  match d with
  | [] => default
  | (k, v) :: rest => if is_str key k then v else get rest key default
  end.

(** The [for idx in range(6)] loop over the identity rows. *)
Fixpoint employee_rows (df : DataFrame) (idxs : list nat) (employee_data : dict) : res dict :=
  match idxs with
  | [] => Ok employee_data
  | idx :: rest =>
      field <- iloc df idx 0 ;;
      value <- iloc df idx 1 ;;
      employee_rows df rest
        (if notna field && notna value
         then (field, str value) :: employee_data else employee_data)
  end.

(** *** Columns of the daily table *)

Fixpoint column_index (label : string) (cols : list cell) (j : nat) : option nat :=
  match cols with
  | [] => None
  | c :: rest => if is_str label c then Some j else column_index label rest (S j)
  end.

(** [df[label]]: the cells of the first column that carries the label. *)
Definition column (df : DataFrame) (label : string) : res (list cell) :=
  match column_index label (columns df) 0 with
  | None => Raise (KeyError ("'" ++ label ++ "'"))
  | Some j => Ok (map (fun r => nth j r CNaN) (rows df))
  end.

(** [df[mask]]: the rows whose mask entry is [True]. *)
Fixpoint select {A : Type} (mask : list bool) (l : list A) : list A :=
  match mask, l with
  | b :: mask', x :: l' => if b then x :: select mask' l' else select mask' l'
  | _, _ => []
  end.

(** [series.sum()] on a column of objects: the entries are added from left
    to right, starting from zero; a missing entry is skipped; text among
    numbers is a [TypeError]. *)
Fixpoint sum_from (acc : float) (l : list cell) : res float :=
  match l with
  | [] => Ok acc
  | CNaN :: rest => sum_from acc rest
  | CNum x _ :: rest => if is_nan x then sum_from acc rest else sum_from (acc + x)%float rest
  | CStr _ :: _ => Raise (TypeError "unsupported operand type(s) for +: 'int' and 'str'")
  end.

Definition sum (l : list cell) : res float := sum_from zero l.

(** *** Lines 66 to 72: the hours summary of the daily table *)
Definition hours_summary (daily_df : DataFrame) : res WorkingHours :=
  status <- column daily_df "status" ;;
  let work_days :=
    {| columns := columns daily_df;
       rows := select (map (fun c => is_str "Present" c || is_str "Half Day" c) status)
                      (rows daily_df) |} in
  worked <- column work_days "hours_worked" ;;
  regular_hours <- sum worked ;;
  overtime <- column daily_df "overtime_hours" ;;
  overtime_hours <- sum overtime ;;
  let leave_days := List.length (select (map (is_str "Leave") status) (rows daily_df)) in
  let holiday :=
    {| columns := columns daily_df;
       rows := select (map (is_str "Holiday Work") status) (rows daily_df) |} in
  holiday_worked <- column holiday "hours_worked" ;;
  holiday_work_hours <- sum holiday_worked ;;
  Ok {| regular_hours := regular_hours;
        overtime_hours := overtime_hours;
        leave_days := Z.of_nat leave_days;
        holiday_work_hours := holiday_work_hours |}.

Definition repr_list (l : list cell) : string :=
  "[" ++ String.concat ", " (map repr l) ++ "]".

(** *** [parse_excel_timesheet], the body inside [try] *)
Definition parse_excel_body (f : file) : res TimesheetData :=
  df <- read_excel f None None ;;
  employee_data <- employee_rows df (seq 0 6) [] ;;
  start_cell <- iloc df 8 1 ;;
  let period_start := str start_cell in
  end_cell <- iloc df 9 1 ;;
  let period_end := str end_cell in
  match first_row is_date_anchor (rows df) 0 with
  | None => Raise (ValueError "Could not find daily attendance records in timesheet")
  | Some daily_start_row =>
      daily_df <- read_excel f (Some daily_start_row) (Some 32%nat) ;;
      header <- iloc_row daily_df 0 ;;
      let daily_df := {| columns := header; rows := tl (rows daily_df) |} in
      match column_index "date" (columns daily_df) 0 with
      | None =>
          Raise (ValueError ("'date' column not found. Available columns: "
                             ++ repr_list (columns daily_df)))
      | Some date =>
          let daily_df :=
            {| columns := columns daily_df;
               rows := filter (fun r => notna (nth date r CNaN)) (rows daily_df) |} in
          summary <- hours_summary daily_df ;;
          let summary_start_row := first_row is_summary_anchor (rows df) 0 in
          summary_df <- read_excel f summary_start_row (Some 6%nat) ;;
          hourly_cell <- iloc summary_df 4 1 ;;
          hourly_rate <- to_float hourly_cell ;;
          overtime_cell <- iloc summary_df 5 1 ;;
          overtime_rate <- to_float overtime_cell ;;
          Ok {| employee :=
                  {| employee_id := get employee_data "Employee ID" "";
                     name := get employee_data "Name" "";
                     department := get employee_data "Department" "";
                     designation := get employee_data "Designation" "";
                     email := get employee_data "Email" "";
                     bank_account := get employee_data "Bank Account" "" |};
                period := {| start_date := period_start; end_date := period_end |};
                hours := summary;
                hourly_rate := Some hourly_rate;
                overtime_rate := Some overtime_rate |}
      end
  end.

Definition parse_excel_timesheet (f : file) : agent_result TimesheetData :=
  try_except (parse_excel_body f).

Definition parse_pdf_timesheet : agent_result TimesheetData :=
  {| success := false; data := None; error := Some "PDF parsing not implemented yet" |}.

(** *** [process] *)
Definition process (fs : filesystem) (file_path : string) : agent_result TimesheetData :=
  match fs file_path with
  | None =>
      {| success := false; data := None;
         error := Some ("File not found: " ++ file_path)%string |}
  | Some f =>
      let file_extension := PyStr.lower (PyStr.extension file_path) in
      if (String.eqb file_extension ".xlsx" || String.eqb file_extension ".xls")%bool
      then parse_excel_timesheet f
      else if String.eqb file_extension ".pdf" then parse_pdf_timesheet
      else {| success := false; data := None;
              error := Some ("Unsupported file format: " ++ file_extension)%string |}
  end.

End Parser.

(** ** Daily attendance records

    The rows of the daily table as [generate_dummy_timesheets.py] writes
    them, and the table that holds a sequence of them. *)

Module Attendance.

Record DailyRecord := {
  date : string;
  day : string;
  status : string;
  hours_worked : float;
  overtime_hours : float;
  notes : string
}.

Definition labels : list Parser.cell :=
  map Parser.CStr ["date"; "day"; "status"; "hours_worked"; "overtime_hours"; "notes"].

Section Table.

(** The text [str()] prints for a number; no property depends on it. *)
Variable show : float -> string.

Definition row_of (r : DailyRecord) : list Parser.cell :=
  [ Parser.CStr (date r); Parser.CStr (day r); Parser.CStr (status r);
    Parser.CNum (hours_worked r) (show (hours_worked r));
    Parser.CNum (overtime_hours r) (show (overtime_hours r));
    if String.eqb (notes r) "" then Parser.CNaN else Parser.CStr (notes r) ].

(** [daily_df] when the daily table holds exactly the records [rs]. *)
Definition daily_table (rs : list DailyRecord) : Parser.DataFrame :=
  {| Parser.columns := labels; Parser.rows := map row_of rs |}.

End Table.

(** The sum of a sequence of floats, added from left to right. *)
Definition total (l : list float) : float := fold_left Float.add l zero.

Definition has_status (names : list string) (r : DailyRecord) : bool :=
  existsb (String.eqb (status r)) names.

(** Both hour fields hold numbers. *)
Definition numeric (r : DailyRecord) : bool :=
  negb (Parser.is_nan (hours_worked r)) && negb (Parser.is_nan (overtime_hours r)).

Definition a_day (st : string) (h : Z) : DailyRecord :=
  {| date := "2025-10-01"; day := "Wednesday"; status := st;
     hours_worked := of_Z h; overtime_hours := of_Z 0; notes := "" |}.

(** 20 days present at 8h, 2 half days at 4h, 3 days of leave and 1 day of
    holiday work at 8h. *)
Definition month : list DailyRecord :=
  (repeat (a_day "Present" 8) 20 ++ repeat (a_day "Half Day" 4) 2
   ++ repeat (a_day "Leave" 0) 3 ++ repeat (a_day "Holiday Work" 8) 1)%list.

End Attendance.

(** ** The workflow ([workflow.py]) *)

Module Workflow.

(** The dictionary [SalarySlipGeneratorAgent.process] returns. *)
Record generator_result := {
  gen_success : bool;
  file_path : option string;
  gen_error : option string
}.

(** What a run depends on besides its argument: the files on disk, the
    date [datetime.now()] gives, and the PDF generator, which is kept
    abstract. *)
Record environment := {
  files : Parser.filesystem;
  today : string;
  generator :
    option TimesheetData -> option SalaryCalculation -> generator_result
}.

Record WorkflowState := {
  timesheet_file_path : string;
  timesheet_data : option TimesheetData;
  extraction_status : string;
  extraction_error : option string;
  salary_calculation : option SalaryCalculation;
  calculation_status : string;
  calculation_error : option string;
  salary_slip_path : option string;
  generation_status : string;
  generation_error : option string;
  workflow_status : string
}.

Section Nodes.

Variable env : environment.

Definition agent1_parse_timesheet (state : WorkflowState) : WorkflowState :=
  let result := Parser.process (files env) (timesheet_file_path state) in
  if success result then
    {| timesheet_file_path := timesheet_file_path state;
       timesheet_data := data result;
       extraction_status := "success";
       extraction_error := None;
       salary_calculation := salary_calculation state;
       calculation_status := calculation_status state;
       calculation_error := calculation_error state;
       salary_slip_path := salary_slip_path state;
       generation_status := generation_status state;
       generation_error := generation_error state;
       workflow_status := workflow_status state |}
  else
    {| timesheet_file_path := timesheet_file_path state;
       timesheet_data := None;
       extraction_status := "failed";
       extraction_error := error result;
       salary_calculation := salary_calculation state;
       calculation_status := calculation_status state;
       calculation_error := calculation_error state;
       salary_slip_path := salary_slip_path state;
       generation_status := generation_status state;
       generation_error := generation_error state;
       workflow_status := "failed_at_parsing" |}.

Definition agent2_calculate_salary (state : WorkflowState) : WorkflowState :=
  if negb (String.eqb (extraction_status state) "success") then
    {| timesheet_file_path := timesheet_file_path state;
       timesheet_data := timesheet_data state;
       extraction_status := extraction_status state;
       extraction_error := extraction_error state;
       salary_calculation := salary_calculation state;
       calculation_status := "skipped";
       calculation_error := calculation_error state;
       salary_slip_path := salary_slip_path state;
       generation_status := generation_status state;
       generation_error := generation_error state;
       workflow_status := workflow_status state |}
  else
    let result := Calculator.process (today env) (timesheet_data state) in
    if success result then
      {| timesheet_file_path := timesheet_file_path state;
         timesheet_data := timesheet_data state;
         extraction_status := extraction_status state;
         extraction_error := extraction_error state;
         salary_calculation := data result;
         calculation_status := "success";
         calculation_error := None;
         salary_slip_path := salary_slip_path state;
         generation_status := generation_status state;
         generation_error := generation_error state;
         workflow_status := workflow_status state |}
    else
      {| timesheet_file_path := timesheet_file_path state;
         timesheet_data := timesheet_data state;
         extraction_status := extraction_status state;
         extraction_error := extraction_error state;
         salary_calculation := None;
         calculation_status := "failed";
         calculation_error := error result;
         salary_slip_path := salary_slip_path state;
         generation_status := generation_status state;
         generation_error := generation_error state;
         workflow_status := "failed_at_calculation" |}.

Definition agent3_generate_pdf (state : WorkflowState) : WorkflowState :=
  if negb (String.eqb (calculation_status state) "success") then
    {| timesheet_file_path := timesheet_file_path state;
       timesheet_data := timesheet_data state;
       extraction_status := extraction_status state;
       extraction_error := extraction_error state;
       salary_calculation := salary_calculation state;
       calculation_status := calculation_status state;
       calculation_error := calculation_error state;
       salary_slip_path := salary_slip_path state;
       generation_status := "skipped";
       generation_error := generation_error state;
       workflow_status := workflow_status state |}
  else
    let result := generator env (timesheet_data state) (salary_calculation state) in
    if gen_success result then
      {| timesheet_file_path := timesheet_file_path state;
         timesheet_data := timesheet_data state;
         extraction_status := extraction_status state;
         extraction_error := extraction_error state;
         salary_calculation := salary_calculation state;
         calculation_status := calculation_status state;
         calculation_error := calculation_error state;
         salary_slip_path := file_path result;
         generation_status := "success";
         generation_error := None;
         workflow_status := "completed" |}
    else
      {| timesheet_file_path := timesheet_file_path state;
         timesheet_data := timesheet_data state;
         extraction_status := extraction_status state;
         extraction_error := extraction_error state;
         salary_calculation := salary_calculation state;
         calculation_status := calculation_status state;
         calculation_error := calculation_error state;
         salary_slip_path := None;
         generation_status := "failed";
         generation_error := gen_error result;
         workflow_status := "failed_at_generation" |}.

(** The graph built by [_build_workflow]: the entry point
    [parse_timesheet], then the edges to [calculate_salary], to
    [generate_pdf] and to [END]. *)
Definition invoke (initial_state : WorkflowState) : WorkflowState :=
  agent3_generate_pdf (agent2_calculate_salary (agent1_parse_timesheet initial_state)).

Definition initial_state (timesheet_file_path : string) : WorkflowState :=
  {| timesheet_file_path := timesheet_file_path;
     timesheet_data := None;
     extraction_status := "pending";
     extraction_error := None;
     salary_calculation := None;
     calculation_status := "pending";
     calculation_error := None;
     salary_slip_path := None;
     generation_status := "pending";
     generation_error := None;
     workflow_status := "started" |}.

Definition process_timesheet (timesheet_file_path : string) : WorkflowState :=
  invoke (initial_state timesheet_file_path).

(** Extraction followed by calculation: the payroll result in the
    state when the first two nodes have run. *)
Definition extract_and_calculate (timesheet_file_path : string)
  : option SalaryCalculation :=
  salary_calculation
    (agent2_calculate_salary (agent1_parse_timesheet (initial_state timesheet_file_path))).

End Nodes.

End Workflow.

(** ** Sample documents, laid out as [create_excel_timesheet] writes them *)

Module Samples.

Import Parser.

Definition pair (a b : cell) : list cell := [a; b; CNaN; CNaN; CNaN; CNaN].
Definition blank : list cell := pair CNaN CNaN.

Definition identity (email_cell : cell) : sheet :=
  [ pair (CStr "Field") (CStr "Value");
    pair (CStr "Employee ID") (CStr "EMP001");
    pair (CStr "Name") (CStr "John Smith");
    pair (CStr "Department") (CStr "Engineering");
    pair (CStr "Designation") (CStr "Senior Software Engineer");
    pair (CStr "Email") email_cell;
    pair (CStr "Bank Account") (CStr "1234567890");
    blank;
    pair (CStr "Field") (CStr "Value");
    pair (CStr "Pay Period Start") (CStr "2025-10-01");
    pair (CStr "Pay Period End") (CStr "2025-10-31");
    blank; blank ].

Definition a_day (d dn st : string) (h o : Z) : list cell :=
  [CStr d; CStr dn; CStr st; CInt h; CInt o; CNaN].

Definition daily : sheet :=
  [ map CStr ["date"; "day"; "status"; "hours_worked"; "overtime_hours"; "notes"];
    a_day "2025-10-01" "Wednesday" "Present" 8 2;
    a_day "2025-10-02" "Thursday" "Half Day" 4 0;
    a_day "2025-10-03" "Friday" "Leave" 0 0;
    a_day "2025-10-04" "Saturday" "Weekend" 0 0;
    a_day "2025-10-06" "Monday" "Holiday Work" 8 0;
    blank; blank ].

Definition summary : sheet :=
  [ pair (CStr "Metric") (CStr "Value");
    pair (CStr "Total Regular Hours") (CInt 12);
    pair (CStr "Total Overtime Hours") (CInt 2);
    pair (CStr "Total Leave Days") (CInt 1);
    pair (CStr "Holiday Work Hours") (CInt 8);
    pair (CStr "Hourly Rate ($)") (CInt 45);
    pair (CStr "Overtime Rate ($)") (CNum (decimal 675 1) "67.5") ].

(** A complete timesheet. *)
Definition timesheet : file :=
  Workbook [("Timesheet", (identity (CStr "john.smith@company.com") ++ daily ++ summary)%list)].

(** The same timesheet without its summary block. *)
Definition no_summary : file :=
  Workbook [("Timesheet", (identity (CStr "john.smith@company.com") ++ daily)%list)].

(** Without its summary block and with the e-mail cell left blank. *)
Definition no_summary_no_email : file :=
  Workbook [("Timesheet", (identity CNaN ++ daily)%list)].

Definition path : string := "timesheets/excel/EMP001_John_Smith_Timesheet_Oct2025.xlsx".

Definition disk (f : file) : filesystem :=
  fun p => if String.eqb p path then Some f else None.

Definition no_generator (_ : option TimesheetData) (_ : option SalaryCalculation)
  : Workflow.generator_result :=
  {| Workflow.gen_success := false; Workflow.file_path := None;
     Workflow.gen_error := Some "Failed to generate PDF" |}.

End Samples.

(** ** Binary64 rounding, as needed to compare taxes

    The notions below serve the proof that the tax is monotone.  They
    describe what the operations of [Float] compute by their value. *)

Module Rounding.

(** The smallest exponent and the exponent of a number of a given
    magnitude, for binary64. *)
Definition emin : Z := SpecFloat.emin prec emax.

Definition fexp (e : Z) : Z := SpecFloat.fexp prec emax e.

(** A value [V], counted in some unit, seen at a coarser step [W]: the
    quotient and where the remainder lies between two multiples of [W]. *)
Definition loc_of (r W : Z) : location :=
  if r =? 0 then loc_Exact else loc_Inexact (2 * r ?= W).

(** The record [shr] works on, for the value [V] at the step [W]. *)
Definition located (V W : Z) : shr_record :=
  shr_record_of_loc (V / W) (loc_of (V mod W) W).

(** Every quantity the tax computation meets is a whole number of units of
    [2^-2148 / 100]: the floats themselves, the exact sums, differences and
    products of two floats, and the hundredths that [round] produces. *)
Definition K : Z := 2148.

(** The number of units in [2^e]. *)
Definition W (e : Z) : Z := 100 * 2 ^ (e + K).

(** The exponent [M] with [2^(M-1) <= V < 2^M], [V] counted in units. *)
Definition mag (V : Z) : Z := Zdigits2 (V / 100) - K.

(** The float nearest to the [V] units, ties to even. *)
Definition RND (V : Z) : float :=
  let E := fexp (mag V) in
  let m := div_half_even V (W E) in
  if m =? 2 ^ 53 then
    if E + 1 <=? 971 then S754_finite false (2 ^ 52) (E + 1) else S754_infinity false
  else
    match m with
    | Zpos p => if E <=? 971 then S754_finite false p E else S754_infinity false
    | _ => S754_zero false
    end.

(** The floats from [0.0] to [inf] that Python can hold. *)
Definition nonneg (x : float) : bool :=
  match x with
  | S754_zero _ => true
  | S754_finite false m e => bounded prec emax m e
  | S754_infinity false => true
  | _ => false
  end.

(** The value of a non-negative float in units; [inf] sits at [2^1024]. *)
Definition uval (x : float) : Z :=
  match x with
  | S754_finite _ m e => Zpos m * W e
  | S754_infinity _ => W 1024
  | _ => 0
  end.

(** The value of the rounding, in units. *)
Definition rv (V : Z) : Z :=
  Z.min (div_half_even V (W (fexp (mag V))) * W (fexp (mag V))) (W 1024).

(** [x] is at most [y], both being non-negative floats. *)
Definition at_most (x y : float) : Prop :=
  nonneg x = true /\ nonneg y = true /\ uval x <= uval y.

(** A float that is neither an infinity nor NaN, and at least zero. *)
Definition finite_nonneg (x : float) : bool :=
  match x with
  | S754_zero _ => true
  | S754_finite false m e => bounded prec emax m e
  | _ => false
  end.

(** A finite float above zero. *)
Definition positive_finite (x : float) : bool :=
  match x with
  | S754_finite false m e => bounded prec emax m e
  | _ => false
  end.

(** A bracket table in ascending order above [previous_limit], with
    positive finite rates. *)
Fixpoint ascending (previous_limit : float) (brackets : list bracket) : bool :=
  match brackets with
  | [] => true
  | b :: rest =>
      finite_nonneg previous_limit && nonneg (limit b) && positive_finite (rate b)
      && nonneg (Float.sub (limit b) previous_limit)
      && ascending (limit b) rest
  end.

(** The amount a bracket adds to the tax of the gross salary [g]. *)
Definition bracket_tax (b : bracket) (previous_limit g : float) : float :=
  (Float.min (g - previous_limit) (limit b - previous_limit) * rate b)%float.

End Rounding.

(** ** Notions used in the statements *)

(** The sum of the four component fields of a breakdown. *)
Definition sum_of_fields (g : GrossSalary) : float :=
  (base_pay g + overtime_pay g + allowances g + bonuses g)%float.

(** A payroll result with its calculation date blanked. *)
Definition undated (r : SalaryCalculation) : SalaryCalculation :=
  {| calc_employee_id := calc_employee_id r;
     gross_salary := gross_salary r;
     deductions := deductions r;
     net_salary := net_salary r;
     calculation_date := "" |}.

(** A timesheet with one regular hour and one overtime hour, both paid
    0.004 an hour. *)
Definition tiny_rates : TimesheetData :=
  {| employee :=
       {| employee_id := "EMP001"; name := "John Smith"; department := "Engineering";
          designation := "Senior Software Engineer"; email := "john.smith@company.com";
          bank_account := "1234567890" |};
     period := {| start_date := "2025-10-01"; end_date := "2025-10-31" |};
     hours := {| regular_hours := of_Z 1; overtime_hours := of_Z 1; leave_days := 0;
                 holiday_work_hours := zero |};
     hourly_rate := Some (decimal 4 3);
     overtime_rate := Some (decimal 4 3) |}.

(** A run on the complete sample timesheet on the date [d]. *)
Definition run_on (d : string) : Workflow.environment :=
  {| Workflow.files := Samples.disk Samples.timesheet;
     Workflow.today := d;
     Workflow.generator := Samples.no_generator |}.

(** ** The slip generator ([agents/agent3_pdf_generator.py]) *)

Module Generator.

(** [s.replace(old, new)] for one-character [old] and [new]. *)
Fixpoint replace_char (old new : ascii) (s : string) : string :=
  match s with
  | EmptyString => EmptyString
  | String c r => String (if Ascii.eqb c old then new else c) (replace_char old new r)
  end.

(** [s.replace(old, "")] for a one-character [old]. *)
Fixpoint remove_char (old : ascii) (s : string) : string :=
  match s with
  | EmptyString => EmptyString
  | String c r => if Ascii.eqb c old then remove_char old r else String c (remove_char old r)
  end.

(** [s.endswith("/")]. *)
Fixpoint ends_with_slash (s : string) : bool :=
  match s with
  | EmptyString => false
  | String c EmptyString => Ascii.eqb c "/"
  | String _ r => ends_with_slash r
  end.

(** [os.path.join(a, b)] on POSIX: an absolute [b] replaces [a]; a
    separator is put in unless [a] is empty or ends with one. *)
Definition path_join (a b : string) : string :=
  if PyStr.startswith b "/" then b
  else if (String.eqb a "" || ends_with_slash a)%bool then a ++ b
  else a ++ "/" ++ b.

(** [c in s] for a one-character [c]. *)
Fixpoint contains (c : ascii) (s : string) : bool :=
  match s with
  | EmptyString => false
  | String d r => (Ascii.eqb d c || contains c r)%bool
  end.

(** The file name built by the f-string of [generate_filename]. *)
Definition slip_name (employee_id employee_name period_end : string) : string :=
  let clean_name := replace_char " " "_" employee_name in
  let period := remove_char "-" period_end in
  employee_id ++ "_" ++ clean_name ++ "_SalarySlip_" ++ period ++ ".pdf".

Definition generate_filename (output_dir employee_id employee_name period_end : string)
  : string :=
  path_join output_dir (slip_name employee_id employee_name period_end).

(** [SalarySlipData] of [models.py]. *)
Record SalarySlipData := {
  slip_employee : EmployeeInfo;
  slip_period : PayPeriod;
  slip_hours : WorkingHours;
  slip_salary : SalaryCalculation;
  company_name : string;
  company_address : string
}.

Section Process.

(** [self.output_dir], and [create_salary_slip_pdf], which draws the PDF
    and reports whether it could. *)
Variable output_dir : string.
Variable create_salary_slip_pdf : SalarySlipData -> string -> bool.

Definition process (timesheet_data : TimesheetData) (salary_calculation : SalaryCalculation)
  : Workflow.generator_result :=
  let slip_data :=
    {| slip_employee := employee timesheet_data;
       slip_period := period timesheet_data;
       slip_hours := hours timesheet_data;
       slip_salary := salary_calculation;
       company_name := "TechCorp Industries Inc.";
       company_address := "123 Business Avenue, San Francisco, CA 94102" |} in
  let output_path :=
    generate_filename output_dir
      (employee_id (employee timesheet_data))
      (name (employee timesheet_data))
      (end_date (period timesheet_data)) in
  if create_salary_slip_pdf slip_data output_path then
    {| Workflow.gen_success := true;
       Workflow.file_path := Some output_path;
       Workflow.gen_error := None |}
  else
    {| Workflow.gen_success := false;
       Workflow.file_path := None;
       Workflow.gen_error := Some "Failed to generate PDF" |}.

End Process.

(** A generator for the workflow that is agent 3's [process] whenever the
    workflow hands it a timesheet and a calculation. *)
Definition runs_agent3 (output_dir : string)
  (create_salary_slip_pdf : SalarySlipData -> string -> bool)
  (g : option TimesheetData -> option SalaryCalculation -> Workflow.generator_result) : Prop :=
  forall ts sc, g (Some ts) (Some sc) = process output_dir create_salary_slip_pdf ts sc.

End Generator.

(** ** The batch run ([main.py]) *)

Module Main.

(** One entry of [results]. *)
Record entry := {
  file : string;
  status : string;
  salary_slip : option string;
  employee_name : string;
  entry_net_salary : float
}.

(** [os.path.basename(path)]. *)
Definition basename (path : string) : string :=
  let l := list_ascii_of_string path in
  string_of_list_ascii (PyStr.basename l l).

Section Batch.

Variable env : Workflow.environment.

(** The dictionary appended to [results] for one timesheet. *)
Definition entry_of (timesheet_file : string) (result : Workflow.WorkflowState) : entry :=
  {| file := basename timesheet_file;
     status := Workflow.workflow_status result;
     salary_slip := Workflow.salary_slip_path result;
     employee_name :=
       match Workflow.timesheet_data result with
       | Some ts => name (employee ts)
       | None => "N/A"
       end;
     entry_net_salary :=
       match Workflow.salary_calculation result with
       | Some sc => net_salary sc
       | None => of_Z 0
       end |}.

(** The [for idx, timesheet_file in enumerate(timesheet_files, 1)] loop
    with its three locals. *)
Fixpoint process_each (timesheet_files : list string)
  (results : list entry) (successful failed : Z) : list entry * Z * Z :=
  match timesheet_files with
  | [] => (results, successful, failed)
  | timesheet_file :: rest =>
      let result := Workflow.process_timesheet env timesheet_file in
      let results := (results ++ [entry_of timesheet_file result])%list in
      if String.eqb (Workflow.workflow_status result) "completed"
      then process_each rest results (successful + 1) failed
      else process_each rest results successful (failed + 1)
  end.

(** What [process_all_timesheets] hands to [print_final_summary], given
    the files the [glob] finds; [None] when it returns before the loop
    because there is none. *)
Definition process_all_timesheets (timesheet_files : list string)
  : option (list entry * Z * Z) :=
  match timesheet_files with
  | [] => None
  | _ => Some (process_each timesheet_files [] 0 0)
  end.

End Batch.

End Main.



(** ** Further notions used in the statements *)

(** A rate Python can hold that is positive and finite. *)
Definition payable (r : float) : bool :=
  Float.valid r && Float.ltb (of_Z 0) r && Float.ltb r infinity.

(** An amount of hours Python can hold that is at least zero. *)
Definition countable (h : float) : bool := Float.valid h && Float.leb (of_Z 0) h.

(** Hours worked: each of the three amounts is at least zero. *)
Definition worked (w : WorkingHours) : bool :=
  countable (regular_hours w) && countable (overtime_hours w)
  && countable (holiday_work_hours w).

(** [w] has at most the hours of [w'] in each of the three amounts. *)
Definition fewer_hours (w w' : WorkingHours) : bool :=
  Float.leb (regular_hours w) (regular_hours w')
  && Float.leb (overtime_hours w) (overtime_hours w')
  && Float.leb (holiday_work_hours w) (holiday_work_hours w').

(** The bonus for 160 regular hours. *)
Definition bonus_of (h : float) : float :=
  if Float.geb h (of_Z 160) then of_Z 200 else zero.

(** A timesheet with the given hours and rates. *)
Definition sheet_of (w : WorkingHours) (hourly overtime : float) : TimesheetData :=
  {| employee := {| employee_id := "EMP001"; name := "John Smith";
                    department := "Engineering"; designation := "Engineer";
                    email := "john.smith@company.com"; bank_account := "1234567890" |};
     period := {| start_date := "2025-10-01"; end_date := "2025-10-31" |};
     hours := w;
     hourly_rate := Some hourly;
     overtime_rate := Some overtime |}.

(** ** The sheets written for testing ([generate_dummy_timesheets.py]) *)

Module Timesheets.

Import Parser.



(** A string as it is read back from the sheet: the empty string leaves
    the cell blank. *)
Definition text (s : string) : cell :=
  if String.eqb s "" then CNaN else CStr s.

(** A row of a two-column frame in the sheet, which is as wide as the
    daily table. *)
Definition wide (a b : cell) : list cell := [a; b; CNaN; CNaN; CNaN; CNaN].

Definition blank : list cell := wide CNaN CNaN.

Section Sheet.

Variable show : float -> string.




End Sheet.





(** The dictionary after the identity row with [label] and the value [v]. *)
Definition entry (label v : string) (employee_data : dict) : dict :=
  if notna (text v) then (CStr label, str (text v)) :: employee_data else employee_data.


End Timesheets.

(** ** Further sheets *)

Module Cases.

Import Parser.

(** A sheet that ends after the pay period: no daily table. *)
Definition no_daily_table : file :=
  Workbook [("Timesheet", Samples.identity (CStr "john.smith@company.com"))].



(** A generator that fails like [Samples.no_generator] when it is given
    both arguments and reports a file otherwise. *)
Definition odd_generator (ts : option TimesheetData) (sc : option SalaryCalculation)
  : Workflow.generator_result :=
  match ts, sc with
  | Some _, Some _ => Samples.no_generator ts sc
  | _, _ =>
      {| Workflow.gen_success := true; Workflow.file_path := Some "nothing.pdf";
         Workflow.gen_error := None |}
  end.

(** Agent 3 writing into [salary_slips], with a PDF writer that always
    succeeds, as the generator of a workflow. *)
Definition agent3 (ts : option TimesheetData) (sc : option SalaryCalculation)
  : Workflow.generator_result :=
  match ts, sc with
  | Some t, Some s => Generator.process "salary_slips" (fun _ _ => true) t s
  | _, _ => Samples.no_generator ts sc
  end.



Definition office (f : file) (g : option TimesheetData -> option SalaryCalculation
                                  -> Workflow.generator_result) : Workflow.environment :=
  {| Workflow.files := Samples.disk f; Workflow.today := "2025-11-01";
     Workflow.generator := g |}.


(** A timesheet that came without its hourly rate. *)
Definition unpaid : TimesheetData :=
  {| employee := employee tiny_rates; period := period tiny_rates;
     hours := hours tiny_rates; hourly_rate := None;
     overtime_rate := overtime_rate tiny_rates |}.

End Cases.

(** * Properties *)

(** ** Sample values of the float model *)

(** The literal [0.1] is the double [0x1.999999999999ap-4]. *)
Example literal_one_tenth : decimal 10 2 = S754_finite false 7205759403792794 (-56).
Proof. vm_compute. reflexivity. Qed.

(** [1000 * 0.10] is exactly [100.0], although [0.10] is not a tenth. *)
Example thousand_tenths : Float.mul (of_Z 1000) (decimal 10 2) = of_Z 100.
Proof. vm_compute. reflexivity. Qed.

(** [round(0.125, 2) == 0.12] and [round(0.375, 2) == 0.38]: ties go to the
    even hundredth. *)
Example round2_ties :
  round2 (decimal 125 3) = decimal 12 2 /\ round2 (decimal 375 3) = decimal 38 2.
Proof. split; vm_compute; reflexivity. Qed.

(** [round(2.675, 2) == 2.67]: the double nearest to 2.675 lies below it. *)
Example round2_below_tie : round2 (decimal 2675 3) = decimal 267 2.
Proof. vm_compute. reflexivity. Qed.

(** [round(-0.0009765625, 2) == -0.0]: the sign survives. *)
Example round2_negative_zero :
  round2 (S754_finite true 4503599627370496 (-62)) = S754_zero true.
Proof. vm_compute. reflexivity. Qed.

(** ** The progressive tax *)

Section TaxLoop.

Local Open Scope float_scope.

Lemma compare_Eq_sym (x y : float) :
  SFcompare x y = Some Eq -> SFcompare y x = Some Eq.
Proof.
  destruct x as [sx|sx| |sx mx ex], y as [sy|sy| |sy my ey]; simpl;
    try destruct sx; try destruct sy; try congruence.
  - rewrite (Z.compare_antisym ex ey).
    destruct (ex ?= ey); simpl; try congruence.
    pose proof (Pos.compare_cont_antisym mx my Eq) as A; simpl in A; rewrite <- A.
    destruct (Pos.compare_cont Eq mx my); simpl; congruence.
  - rewrite (Z.compare_antisym ex ey).
    destruct (ex ?= ey); simpl; try congruence.
    pose proof (Pos.compare_cont_antisym mx my Eq) as A; simpl in A; rewrite <- A.
    destruct (Pos.compare_cont Eq mx my); simpl; congruence.
Qed.

(** [x <= y] without [x < y] leaves [x == y], hence not [x > y]. *)
Lemma leb_not_ltb_not_gtb (x y : float) :
  (x <=? y) = true -> (x <? y) = false -> (x >? y) = false.
Proof.
  unfold Float.leb, Float.ltb, Float.gtb, SFleb, SFltb. intros Hle Hlt.
  destruct (SFcompare x y) as [[| |]|] eqn:E; try discriminate.
  now rewrite (compare_Eq_sym _ _ E).
Qed.

Lemma ltb_leb (x y : float) : (x <? y) = true -> (x <=? y) = true.
Proof.
  unfold Float.leb, Float.ltb, SFleb, SFltb.
  destruct (SFcompare x y) as [[| |]|]; congruence.
Qed.

(** Once the salary is not above [previous_limit], no later bracket is
    entered and the tax stays what it is. *)
Lemma tax_loop_idle brackets g tax previous_limit :
  (g >? previous_limit) = false -> tax_loop brackets g tax previous_limit = tax.
Proof.
  intros H. induction brackets as [|b rest IH]; simpl; [reflexivity|].
  now rewrite H.
Qed.

Lemma tax_loop_strict_idle brackets g tax previous_limit :
  (g >? previous_limit) = false -> tax_loop_strict brackets g tax previous_limit = tax.
Proof.
  intros H. induction brackets as [|b rest IH]; simpl; [reflexivity|].
  now rewrite H.
Qed.

Lemma tax_loop_strict_eq brackets :
  forall g tax previous_limit,
    tax_loop brackets g tax previous_limit = tax_loop_strict brackets g tax previous_limit.
Proof.
  induction brackets as [|b rest IH]; intros g tax previous_limit; simpl; [reflexivity|].
  destruct (g >? previous_limit); [|apply IH].
  destruct (g <=? limit b) eqn:Hle.
  - destruct (g <? limit b) eqn:Hlt; [reflexivity|].
    symmetry. apply tax_loop_strict_idle.
    now apply leb_not_ltb_not_gtb.
  - destruct (g <? limit b) eqn:Hlt; [|apply IH].
    apply ltb_leb in Hlt. congruence.
Qed.

Lemma leb_zero_not_gtb (g : float) :
  (g <=? of_Z 0) = true -> (g >? of_Z 0) = false.
Proof.
  destruct g as [s|s| |s m e]; try destruct s; cbv; congruence.
Qed.

End TaxLoop.

(** C1.  On the default bracket table the tax is exactly 100.00 for a gross
    of 1000.00, 340.00 for 3000.00, 780.00 for 5000.00 and 1020.00 for
    6000.00. *)
Theorem tax_at_the_bracket_limits :
  tax_brackets =
    [ {| limit := of_Z 1000; rate := decimal 10 2 |};
      {| limit := of_Z 3000; rate := decimal 12 2 |};
      {| limit := of_Z 5000; rate := decimal 22 2 |};
      {| limit := infinity; rate := decimal 24 2 |} ]
  /\ calculate_progressive_tax (of_Z 1000) = of_Z 100
  /\ calculate_progressive_tax (of_Z 3000) = of_Z 340
  /\ calculate_progressive_tax (of_Z 5000) = of_Z 780
  /\ calculate_progressive_tax (of_Z 6000) = of_Z 1020.
Proof. repeat split; vm_compute; reflexivity. Qed.

(** C10.  A gross amount that is zero or negative owes exactly [0.0]: no
    bracket is entered, and the tax is never negative. *)
Theorem tax_of_nonpositive_gross (gross_salary : float) :
  Float.leb gross_salary (of_Z 0) = true ->
  calculate_progressive_tax gross_salary = zero.
Proof.
  intros H. unfold calculate_progressive_tax, progressive_tax.
  rewrite tax_loop_idle by now apply leb_zero_not_gtb.
  reflexivity.
Qed.

Lemma tax_of_nonpositive_gross_witness :
  Float.leb (of_Z (-250)) (of_Z 0) = true /\ calculate_progressive_tax (of_Z (-250)) = zero.
Proof.
  split; [reflexivity | apply (tax_of_nonpositive_gross (of_Z (-250))); reflexivity].
Defined.

(** C8.  The loop as implemented, which leaves on
    [gross_salary <= bracket["limit"]], and the variant that leaves on the
    strict [<] return the same tax for every gross amount, a gross equal to
    a bracket's limit included. *)
Theorem tax_loop_agrees_with_strict_variant (gross_salary : float) :
  calculate_progressive_tax gross_salary = calculate_progressive_tax_strict gross_salary.
Proof.
  unfold calculate_progressive_tax, progressive_tax, calculate_progressive_tax_strict.
  now rewrite tax_loop_strict_eq.
Qed.

(** ** Gross pay and net pay *)

(** C2, as stated, fails: with two components of 0.004 the total is
    500.01 (the rounding of 500.008) while the fields, each rounded on its
    own, are 0.00, 0.00, 500.00 and 0.00 and add up to 500.00. *)
Lemma total_gross_is_not_the_sum_of_rounded_fields :
  exists g,
    calculate_gross_salary tiny_rates = Ok g
    /\ total_gross g = decimal 50001 2
    /\ sum_of_fields g = of_Z 500
    /\ round2 (sum_of_fields g) = of_Z 500
    /\ total_gross g <> round2 (sum_of_fields g).
Proof.
  eexists. split; [reflexivity|]. vm_compute. repeat split. discriminate.
Qed.

(** C2, amended.  Whenever the gross pay is computed, both rates are
    present, [total_gross] is the sum of the unrounded base pay, overtime
    pay, holiday premium, allowance of 500 and bonus, rounded once to two
    decimal places, and each of the fields [base_pay], [overtime_pay],
    [allowances] (allowance plus holiday premium) and [bonuses] is its own
    component rounded to two decimal places. *)
Theorem total_gross_rounds_the_unrounded_sum (ts : TimesheetData) (g : GrossSalary) :
  calculate_gross_salary ts = Ok g ->
  exists hourly overtime,
    hourly_rate ts = Some hourly /\ overtime_rate ts = Some overtime /\
    let base := (regular_hours (hours ts) * hourly)%float in
    let over := (overtime_hours (hours ts) * overtime)%float in
    let holiday := (holiday_work_hours (hours ts) * hourly * decimal 5 1)%float in
    let bonus := if Float.geb (regular_hours (hours ts)) (of_Z 160) then of_Z 200 else zero in
    total_gross g = round2 (base + over + holiday + of_Z 500 + bonus)%float
    /\ base_pay g = round2 base
    /\ overtime_pay g = round2 over
    /\ allowances g = round2 (of_Z 500 + holiday)%float
    /\ bonuses g = bonus.
Proof.
  unfold calculate_gross_salary. intros H.
  destruct (hourly_rate ts) as [hourly|]; [|discriminate].
  destruct (overtime_rate ts) as [overtime|]; [|discriminate].
  exists hourly, overtime. injection H as <-. cbn [total_gross base_pay overtime_pay allowances bonuses].
  repeat split.
  destruct (Float.geb _ _); reflexivity.
Qed.

Lemma total_gross_rounds_the_unrounded_sum_witness :
  exists g, calculate_gross_salary tiny_rates = Ok g /\ total_gross g = decimal 50001 2.
Proof.
  eexists. split; [reflexivity|].
  destruct (total_gross_rounds_the_unrounded_sum tiny_rates _ eq_refl)
    as (hourly & overtime & Hh & Ho & Ht & _).
  injection Hh as <-. injection Ho as <-. rewrite Ht. reflexivity.
Defined.

(** C5.  In every payroll result the calculator returns, [net_salary] is
    [total_gross] of its gross breakdown minus [total_deductions] of its
    deduction breakdown, to the cent. *)
Theorem net_salary_is_gross_minus_deductions
  (today : string) (ts : option TimesheetData) (result : SalaryCalculation) :
  data (Calculator.process today ts) = Some result ->
  success (Calculator.process today ts) = true
  /\ net_salary result =
     round2 (total_gross (gross_salary result) - total_deductions (deductions result))%float.
Proof.
  unfold Calculator.process. intros H.
  destruct (process_body today ts) as [r|e] eqn:E; [|discriminate].
  simpl in H. injection H as <-. split; [reflexivity|].
  unfold process_body in E.
  destruct ts as [ts|]; [|discriminate].
  destruct (calculate_gross_salary ts) as [g|e]; [|discriminate].
  cbv beta iota zeta delta [bind] in E.
  set (d := calculate_deductions (total_gross g)) in E; clearbody d.
  injection E as <-. reflexivity.
Qed.

Lemma net_salary_is_gross_minus_deductions_witness :
  exists result,
    data (Calculator.process "2025-11-01" (Some tiny_rates)) = Some result
    /\ net_salary result = decimal 28676 2.
Proof.
  eexists. split; [reflexivity|].
  rewrite (proj2 (net_salary_is_gross_minus_deductions "2025-11-01" (Some tiny_rates) _ eq_refl)).
  reflexivity.
Defined.

(** ** The pipeline *)

(** C3.  When extraction fails, the run ends with the calculation and the
    hand-off both [skipped] (not [failed]), with no payroll result
    ([salary_calculation] is still [None]), and with the workflow status
    [failed_at_parsing]. *)
Theorem failed_extraction_skips_the_later_stages
  (env : Workflow.environment) (timesheet_file_path : string) :
  success (Parser.process (Workflow.files env) timesheet_file_path) = false ->
  let final := Workflow.process_timesheet env timesheet_file_path in
  Workflow.extraction_status final = "failed"
  /\ Workflow.calculation_status final = "skipped"
  /\ Workflow.generation_status final = "skipped"
  /\ Workflow.salary_calculation final = None
  /\ Workflow.salary_slip_path final = None
  /\ Workflow.workflow_status final = "failed_at_parsing".
Proof.
  intros H.
  unfold Workflow.process_timesheet, Workflow.invoke, Workflow.agent1_parse_timesheet.
  cbn [Workflow.initial_state Workflow.timesheet_file_path].
  rewrite H. cbn. repeat split.
Qed.

Lemma failed_extraction_skips_the_later_stages_witness :
  let env := {| Workflow.files := Samples.disk Samples.no_summary;
                Workflow.today := "2025-11-01";
                Workflow.generator := Samples.no_generator |} in
  success (Parser.process (Workflow.files env) Samples.path) = false
  /\ Workflow.calculation_status (Workflow.process_timesheet env Samples.path) = "skipped"
  /\ Workflow.generation_status (Workflow.process_timesheet env Samples.path) = "skipped".
Proof.
  intros env.
  assert (H : success (Parser.process (Workflow.files env) Samples.path) = false)
    by (vm_compute; reflexivity).
  split; [exact H|].
  destruct (failed_extraction_skips_the_later_stages env Samples.path H)
    as (_ & Hc & Hg & _).
  split; assumption.
Defined.

(** C9, as stated, fails: the same document processed on 31 October and
    again on 1 November gives two results that differ in
    [calculation_date]. *)
Lemma two_runs_differ_in_calculation_date :
  Workflow.files (run_on "2025-10-31") = Workflow.files (run_on "2025-11-01")
  /\ option_map calculation_date
       (Workflow.extract_and_calculate (run_on "2025-10-31") Samples.path)
     = Some "2025-10-31"
  /\ option_map calculation_date
       (Workflow.extract_and_calculate (run_on "2025-11-01") Samples.path)
     = Some "2025-11-01"
  /\ Workflow.extract_and_calculate (run_on "2025-10-31") Samples.path
     <> Workflow.extract_and_calculate (run_on "2025-11-01") Samples.path.
Proof.
  split; [reflexivity|].
  assert (H1 : option_map calculation_date
                 (Workflow.extract_and_calculate (run_on "2025-10-31") Samples.path)
               = Some "2025-10-31") by (vm_compute; reflexivity).
  assert (H2 : option_map calculation_date
                 (Workflow.extract_and_calculate (run_on "2025-11-01") Samples.path)
               = Some "2025-11-01") by (vm_compute; reflexivity).
  split; [exact H1|]. split; [exact H2|].
  intros E. rewrite E, H2 in H1. discriminate H1.
Qed.

(** C9, amended.  Two runs of extraction followed by calculation on the
    same files give payroll results that are equal in every field other
    than [calculation_date], which holds the date of each run; they are
    equal in every field when the two runs take place on the same date.
    The PDF generator has no influence. *)
Theorem two_runs_agree_up_to_calculation_date
  (fs : Parser.filesystem) (timesheet_file_path d1 d2 : string)
  (g1 g2 : option TimesheetData -> option SalaryCalculation -> Workflow.generator_result) :
  let r1 := Workflow.extract_and_calculate
              {| Workflow.files := fs; Workflow.today := d1; Workflow.generator := g1 |}
              timesheet_file_path in
  let r2 := Workflow.extract_and_calculate
              {| Workflow.files := fs; Workflow.today := d2; Workflow.generator := g2 |}
              timesheet_file_path in
  option_map undated r1 = option_map undated r2
  /\ (forall r, r1 = Some r -> calculation_date r = d1)
  /\ (forall r, r2 = Some r -> calculation_date r = d2)
  /\ (d1 = d2 -> r1 = r2).
Proof.
  unfold Workflow.extract_and_calculate, Workflow.agent1_parse_timesheet,
    Workflow.agent2_calculate_salary.
  cbn [Workflow.initial_state Workflow.timesheet_file_path Workflow.files Workflow.today].
  destruct (Parser.process fs timesheet_file_path) as [[|] ts err];
    cbn [success data error String.eqb Ascii.eqb Bool.eqb negb
         Workflow.extraction_status Workflow.timesheet_data Workflow.salary_calculation];
    cbn [option_map]; [|cbn; repeat split; congruence].
  unfold Calculator.process, process_body.
  destruct ts as [ts|]; [destruct (calculate_gross_salary ts) as [g|e]|];
    cbv beta iota zeta delta [bind try_except success data];
    cbn [Workflow.salary_calculation option_map]; try (repeat split; congruence).
  set (d := calculate_deductions (total_gross g)); clearbody d.
  cbn [undated calc_employee_id gross_salary deductions net_salary calculation_date].
  split; [reflexivity|]. split; [intros r [= <-]; reflexivity|].
  split; [intros r [= <-]; reflexivity|]. intros ->. reflexivity.
Qed.

(** ** Extraction *)

(** C4, on the code.  The timesheet [Samples.no_summary_no_email] has no
    row whose first cell starts with [Total Regular Hours].  The scan leaves
    [summary_start_row] at [None], [read_excel] then skips nothing, and the
    two rates are read from the rows of the e-mail address and of the bank
    account: extraction succeeds, with an hourly rate of NaN and an overtime
    rate of 1234567890.0.  With the e-mail address filled in, the only
    error is that the address is no number. *)
Theorem missing_summary_anchor_is_not_reported :
  (forall sh, Samples.no_summary_no_email = Parser.Workbook [("Timesheet", sh)] ->
     Parser.first_row Parser.is_summary_anchor sh 0 = None)
  /\ (exists ts,
        Parser.process (Samples.disk Samples.no_summary_no_email) Samples.path
        = {| success := true; data := Some ts; error := None |}
        /\ hourly_rate ts = Some nan
        /\ overtime_rate ts = PyStr.float_of_string "1234567890"
        /\ bank_account (employee ts) = "1234567890")
  /\ Parser.process (Samples.disk Samples.no_summary) Samples.path
     = {| success := false; data := None;
          error := Some "could not convert string to float: 'john.smith@company.com'" |}.
Proof.
  split; [|split].
  - intros sh [= <-]. vm_compute. reflexivity.
  - eexists. split; [vm_compute; reflexivity|]. vm_compute. repeat split.
  - vm_compute. reflexivity.
Qed.

Section Aggregation.

Import Attendance.
Variable show : float -> string.

Lemma select_map {A B : Type} (p : A -> bool) (f : A -> B) (l : list A) :
  Parser.select (map p l) (map f l) = map f (filter p l).
Proof.
  induction l as [|x l IH]; simpl; [reflexivity|].
  destruct (p x); simpl; now rewrite IH.
Qed.

Lemma sum_from_numbers (f : DailyRecord -> float) (rs : list DailyRecord) :
  forall acc,
    forallb (fun r => negb (Parser.is_nan (f r))) rs = true ->
    Parser.sum_from acc (map (fun r => Parser.CNum (f r) (show (f r))) rs)
    = Ok (fold_left Float.add (map f rs) acc).
Proof.
  induction rs as [|r rs IH]; intros acc H; simpl; [reflexivity|].
  simpl in H. apply andb_prop in H as [Hr Hrs].
  apply negb_true_iff in Hr. rewrite Hr. now apply IH.
Qed.

Lemma forallb_filter {A : Type} (p q : A -> bool) (l : list A) :
  forallb p l = true -> forallb p (filter q l) = true.
Proof.
  induction l as [|x l IH]; simpl; [reflexivity|].
  intros H. apply andb_prop in H as [Hx Hl].
  destruct (q x); simpl; [rewrite Hx|]; auto.
Qed.

Lemma numeric_hours (rs : list DailyRecord) :
  forallb numeric rs = true ->
  forallb (fun r => negb (Parser.is_nan (hours_worked r))) rs = true
  /\ forallb (fun r => negb (Parser.is_nan (overtime_hours r))) rs = true.
Proof.
  induction rs as [|r rs IH]; simpl; [auto|].
  intros H. apply andb_prop in H as [Hr Hrs].
  apply andb_prop in Hr as [-> ->]. simpl. now apply IH.
Qed.

Lemma status_mask (names : list string) (rs : list DailyRecord) (q : Parser.cell -> bool) :
  (forall r, q (Parser.CStr (status r)) = has_status names r) ->
  map q (map (fun r => nth 2 r Parser.CNaN) (map (row_of show) rs))
  = map (has_status names) rs.
Proof.
  intros H. rewrite !map_map. apply map_ext. intros r. simpl. apply H.
Qed.

End Aggregation.

(** C6.  For every sequence of daily attendance records whose hour fields
    hold numbers, the hours summary computed from their table has: regular
    hours, the sum of the hours worked over the records with status
    [Present] or [Half Day]; overtime hours, the sum of the overtime field
    over all records; leave days, the number of records with status
    [Leave]; holiday-work hours, the sum of the hours worked over the
    records with status [Holiday Work].  For 20 days present at 8h, 2 half
    days at 4h, 3 days of leave and 1 day of holiday work at 8h this gives
    168 regular hours, 3 leave days and 8 holiday hours. *)
Theorem hours_summary_sums_by_status :
  (forall (show : float -> string) (rs : list Attendance.DailyRecord),
     forallb Attendance.numeric rs = true ->
     Parser.hours_summary (Attendance.daily_table show rs)
     = Ok {| regular_hours :=
               Attendance.total
                 (map Attendance.hours_worked
                    (filter (Attendance.has_status ["Present"; "Half Day"]) rs));
             overtime_hours := Attendance.total (map Attendance.overtime_hours rs);
             leave_days :=
               Z.of_nat (List.length (filter (Attendance.has_status ["Leave"]) rs));
             holiday_work_hours :=
               Attendance.total
                 (map Attendance.hours_worked
                    (filter (Attendance.has_status ["Holiday Work"]) rs)) |})
  /\ (forall show,
        Parser.hours_summary (Attendance.daily_table show Attendance.month)
        = Ok {| regular_hours := of_Z 168; overtime_hours := zero; leave_days := 3;
                holiday_work_hours := of_Z 8 |}).
Proof.
  split.
  - intros show rs H.
    destruct (numeric_hours rs H) as [Hw Ho].
    unfold Parser.hours_summary, Parser.column, Attendance.daily_table.
    cbn [Parser.columns Parser.rows].
    change (Parser.column_index "status" Attendance.labels 0) with (Some 2%nat).
    change (Parser.column_index "hours_worked" Attendance.labels 0) with (Some 3%nat).
    change (Parser.column_index "overtime_hours" Attendance.labels 0) with (Some 4%nat).
    cbn [bind].
    rewrite (status_mask show ["Present"; "Half Day"] rs
               (fun c => Parser.is_str "Present" c || Parser.is_str "Half Day" c)),
      (status_mask show ["Leave"] rs (Parser.is_str "Leave")),
      (status_mask show ["Holiday Work"] rs (Parser.is_str "Holiday Work"));
      try (intros r; unfold Attendance.has_status; cbn [Parser.is_str existsb];
           rewrite ?orb_false_r; reflexivity).
    rewrite !select_map, !map_map. cbn [Attendance.row_of nth].
    unfold Parser.sum.
    rewrite (sum_from_numbers show Attendance.hours_worked)
      by now apply forallb_filter.
    cbn [bind].
    rewrite (sum_from_numbers show Attendance.overtime_hours) by assumption.
    cbn [bind].
    rewrite (sum_from_numbers show Attendance.hours_worked)
      by now apply forallb_filter.
    cbn [bind]. rewrite !length_map. reflexivity.
  - intros show. vm_compute. reflexivity.
Qed.

Lemma hours_summary_sums_by_status_witness :
  forallb Attendance.numeric Attendance.month = true
  /\ Parser.hours_summary (Attendance.daily_table (fun _ => "8") Attendance.month)
     = Ok {| regular_hours := of_Z 168; overtime_hours := zero; leave_days := 3;
             holiday_work_hours := of_Z 8 |}.
Proof.
  split; [reflexivity|].
  rewrite (proj1 hours_summary_sums_by_status (fun _ => "8") Attendance.month eq_refl).
  vm_compute. reflexivity.
Defined.

(** ** The progressive tax is monotone *)

Import Rounding.

(** ** Binary64 rounding *)

Section Digits.

Lemma digits2_size (p : positive) : digits2_pos p = Pos.size p.
Proof. induction p; simpl; congruence. Qed.

Lemma digits_bounds (p : positive) :
  2 ^ (Zpos (digits2_pos p) - 1) <= Zpos p < 2 ^ Zpos (digits2_pos p).
Proof.
  rewrite digits2_size. split.
  - pose proof (Pos.size_le p) as H.
    assert (Zpos (2 ^ Pos.size p) <= Zpos p~0) by exact H.
    rewrite Pos2Z.inj_pow in H0.
    replace (Zpos (Pos.size p)) with (Zpos (Pos.size p) - 1 + 1) in H0 by lia.
    rewrite Z.pow_add_r in H0 by lia. lia.
  - pose proof (Pos.size_gt p) as H.
    assert (Zpos p < Zpos (2 ^ Pos.size p)) by exact H.
    now rewrite Pos2Z.inj_pow in H0.
Qed.

(** The number of binary digits is determined by the two bounds. *)
Lemma digits_unique (m d : Z) :
  0 < d -> 2 ^ (d - 1) <= m < 2 ^ d -> Zdigits2 m = d.
Proof.
  intros Hd [Hlo Hhi].
  assert (0 < m) by (pose proof (Z.pow_pos_nonneg 2 (d - 1)); lia).
  destruct m as [|p|p]; try lia. simpl.
  pose proof (digits_bounds p) as [Plo Phi].
  destruct (Z.lt_trichotomy (Zpos (digits2_pos p)) d) as [L|[E|G]]; [|exact E|].
  - assert (2 ^ Zpos (digits2_pos p) <= 2 ^ (d - 1)) by (apply Z.pow_le_mono_r; lia). lia.
  - assert (2 ^ d <= 2 ^ (Zpos (digits2_pos p) - 1)) by (apply Z.pow_le_mono_r; lia). lia.
Qed.

Lemma Zdigits2_bounds (m : Z) :
  0 < m -> 2 ^ (Zdigits2 m - 1) <= m < 2 ^ Zdigits2 m.
Proof. destruct m; try lia. intros _. apply digits_bounds. Qed.

Lemma Zdigits2_pos (m : Z) : 0 < m -> 0 < Zdigits2 m.
Proof. destruct m; simpl; lia. Qed.

Lemma Zdigits2_mono (a b : Z) : 0 < a -> a <= b -> Zdigits2 a <= Zdigits2 b.
Proof.
  intros Ha Hab.
  pose proof (Zdigits2_bounds a Ha) as [La Ua].
  pose proof (Zdigits2_bounds b ltac:(lia)) as [Lb Ub].
  destruct (Z_le_gt_dec (Zdigits2 a) (Zdigits2 b)) as [|G]; [assumption|].
  assert (2 ^ Zdigits2 b <= 2 ^ (Zdigits2 a - 1)) by (apply Z.pow_le_mono_r; lia). lia.
Qed.

End Digits.

Lemma fexp_eq e : fexp e = Z.max (e - 53) (-1074).
Proof. reflexivity. Qed.

Lemma fexp_mono a b : a <= b -> fexp a <= fexp b.
Proof. rewrite !fexp_eq. lia. Qed.

Lemma loc_of_shr_record_of_loc m l : loc_of_shr_record (shr_record_of_loc m l) = l.
Proof. destruct l as [|[| |]]; reflexivity. Qed.

Lemma shr_m_of_loc m l : shr_m (shr_record_of_loc m l) = m.
Proof. destruct l as [|[| |]]; reflexivity. Qed.

Lemma shr_1_step (q r W : Z) :
  0 <= q -> 0 <= r < W ->
  shr_1 (shr_record_of_loc q (loc_of r W))
  = shr_record_of_loc (q / 2) (loc_of (r + W * (q mod 2)) (2 * W)).
Proof.
  intros Hq Hr.
  assert (Hdm : q = 2 * (q / 2) + q mod 2) by (apply Z.div_mod; lia).
  assert (Hm : 0 <= q mod 2 < 2) by (apply Z.mod_pos_bound; lia).
  unfold loc_of.
  destruct q as [|[p|p|]|]; try lia.
  - (* zero *)
    change (0 / 2) with 0. change (0 mod 2) with 0. rewrite Z.mul_0_r, Z.add_0_r.
    destruct (r =? 0) eqn:R0; [reflexivity|].
    apply Z.eqb_neq in R0.
    replace (2 * r ?= 2 * W) with Lt by (symmetry; apply Z.compare_lt_iff; lia).
    destruct (2 * r ?= W); reflexivity.
  - (* odd, at least 3 *)
    assert (E2 : Zpos p~1 mod 2 = 1) by lia.
    assert (E1 : Zpos p~1 / 2 = Zpos p) by lia.
    rewrite E1, E2.
    destruct (r =? 0) eqn:R0.
    + apply Z.eqb_eq in R0. subst r.
      replace (0 + W * 1 =? 0) with false by (symmetry; apply Z.eqb_neq; lia).
      replace (2 * (0 + W * 1) ?= 2 * W) with Eq by (symmetry; apply Z.compare_eq_iff; lia).
      reflexivity.
    + apply Z.eqb_neq in R0.
      replace (r + W * 1 =? 0) with false by (symmetry; apply Z.eqb_neq; lia).
      replace (2 * (r + W * 1) ?= 2 * W) with Gt by (symmetry; apply Z.compare_gt_iff; lia).
      destruct (2 * r ?= W); reflexivity.
  - (* even, positive *)
    assert (E2 : Zpos p~0 mod 2 = 0) by lia.
    assert (E1 : Zpos p~0 / 2 = Zpos p) by lia.
    rewrite E1, E2, Z.mul_0_r, Z.add_0_r.
    destruct (r =? 0) eqn:R0; [reflexivity|].
    apply Z.eqb_neq in R0.
    replace (2 * r ?= 2 * W) with Lt by (symmetry; apply Z.compare_lt_iff; lia).
    destruct (2 * r ?= W); reflexivity.
  - (* one *)
    change (1 / 2) with 0. change (1 mod 2) with 1.
    destruct (r =? 0) eqn:R0.
    + apply Z.eqb_eq in R0. subst r.
      replace (0 + W * 1 =? 0) with false by (symmetry; apply Z.eqb_neq; lia).
      replace (2 * (0 + W * 1) ?= 2 * W) with Eq by (symmetry; apply Z.compare_eq_iff; lia).
      reflexivity.
    + apply Z.eqb_neq in R0.
      replace (r + W * 1 =? 0) with false by (symmetry; apply Z.eqb_neq; lia).
      replace (2 * (r + W * 1) ?= 2 * W) with Gt by (symmetry; apply Z.compare_gt_iff; lia).
      destruct (2 * r ?= W); reflexivity.
Qed.

(** One halving step keeps the value and doubles the step. *)
Lemma shr_1_located (V W : Z) :
  0 <= V -> 0 < W -> shr_1 (located V W) = located V (2 * W).
Proof.
  intros HV HW. unfold located.
  rewrite shr_1_step.
  - rewrite (Z.mul_comm 2 W), <- Z.div_div by lia.
    rewrite Z.rem_mul_r by lia. rewrite (Z.mul_comm W 2). reflexivity.
  - apply Z.div_pos; lia.
  - apply Z.mod_pos_bound; lia.
Qed.

Lemma iter_pos_located (p : positive) :
  forall V W, 0 <= V -> 0 < W ->
    iter_pos shr_1 p (located V W) = located V (2 ^ Zpos p * W).
Proof.
  induction p as [p IH|p IH|]; intros V W HV HW; simpl iter_pos.
  - rewrite shr_1_located, IH, IH by (try apply Z.mul_pos_pos; try apply Z.pow_pos_nonneg; lia).
    f_equal. replace (Zpos p~1) with (Zpos p + Zpos p + 1) by lia.
    rewrite !Z.pow_add_r by lia. ring.
  - rewrite IH, IH by (try apply Z.mul_pos_pos; try apply Z.pow_pos_nonneg; lia).
    f_equal. replace (Zpos p~0) with (Zpos p + Zpos p) by lia.
    rewrite !Z.pow_add_r by lia. ring.
  - rewrite shr_1_located by lia. reflexivity.
Qed.

(** [shr] by [n] digits. *)
Lemma shr_located (V W e n : Z) :
  0 <= V -> 0 < W -> 0 <= n ->
  shr (located V W) e n = (located V (2 ^ n * W), e + n).
Proof.
  intros HV HW Hn. unfold shr.
  destruct n as [|p|p]; try lia.
  - now rewrite Z.pow_0_r, Z.mul_1_l, Z.add_0_r.
  - now rewrite iter_pos_located.
Qed.

(** Rounding the located value to nearest, ties to even. *)
Lemma round_nearest_even_located (V W : Z) :
  0 < W ->
  round_nearest_even (shr_m (located V W)) (loc_of_shr_record (located V W))
  = div_half_even V W.
Proof.
  intros HW. unfold located.
  rewrite shr_m_of_loc, loc_of_shr_record_of_loc.
  unfold loc_of, div_half_even, round_nearest_even.
  destruct (V mod W =? 0) eqn:R0.
  - apply Z.eqb_eq in R0. rewrite R0.
    replace (2 * 0 ?= W) with Lt by (symmetry; apply Z.compare_lt_iff; lia).
    reflexivity.
  - destruct (2 * (V mod W) ?= W); reflexivity.
Qed.

(** ** Values in a common unit *)

Lemma W_pos e : - K <= e -> 0 < W e.
Proof. intros H. unfold W. pose proof (Z.pow_pos_nonneg 2 (e + K)). lia. Qed.

Lemma W_add e n : - K <= e -> 0 <= n -> W (e + n) = 2 ^ n * W e.
Proof.
  intros He Hn. unfold W.
  replace (e + n + K) with (n + (e + K)) by lia.
  rewrite Z.pow_add_r by lia. ring.
Qed.

Lemma W_mono a b : - K <= a -> a <= b -> W a <= W b.
Proof.
  intros Ha Hab. unfold W.
  assert (2 ^ (a + K) <= 2 ^ (b + K)) by (apply Z.pow_le_mono_r; lia). lia.
Qed.

Lemma div_W V e : - K <= e -> V / W e = V / 100 / 2 ^ (e + K).
Proof.
  intros He. unfold W.
  pose proof (Z.pow_pos_nonneg 2 (e + K) ltac:(lia) ltac:(lia)).
  rewrite Z.div_div by lia. reflexivity.
Qed.

(** Dropping [t] low digits of a number. *)
Lemma digits_shift (A t : Z) :
  0 <= t -> 1 <= A / 2 ^ t -> Zdigits2 A = Zdigits2 (A / 2 ^ t) + t.
Proof.
  intros Ht Hq.
  pose proof (Z.pow_pos_nonneg 2 t ltac:(lia) Ht) as P.
  pose proof (Zdigits2_bounds (A / 2 ^ t) ltac:(lia)) as [Lo Hi].
  pose proof (Zdigits2_pos (A / 2 ^ t) ltac:(lia)) as Dp.
  pose proof (Z.div_mod A (2 ^ t) ltac:(lia)) as DM.
  pose proof (Z.mod_pos_bound A (2 ^ t) P) as MB.
  apply digits_unique; [lia|].
  replace (Zdigits2 (A / 2 ^ t) + t - 1) with (Zdigits2 (A / 2 ^ t) - 1 + t) by lia.
  rewrite !Z.pow_add_r by lia. nia.
Qed.

Lemma mag_of_quotient V e :
  - K <= e -> 1 <= V / W e -> Zdigits2 (V / W e) + e = mag V.
Proof.
  intros He Hq. unfold mag. rewrite div_W in * by assumption.
  rewrite (digits_shift (V / 100) (e + K)) by lia. lia.
Qed.

Lemma mag_bounds V : 100 <= V -> W (mag V - 1) <= V < W (mag V).
Proof.
  intros HV. unfold mag, W.
  assert (1 <= V / 100) by (apply Z.div_le_lower_bound; lia).
  pose proof (Zdigits2_bounds (V / 100) ltac:(lia)) as [Lo Hi].
  replace (Zdigits2 (V / 100) - K - 1 + K) with (Zdigits2 (V / 100) - 1) by lia.
  replace (Zdigits2 (V / 100) - K + K) with (Zdigits2 (V / 100)) by lia.
  pose proof (Z.div_mod V 100 ltac:(lia)). pose proof (Z.mod_pos_bound V 100 ltac:(lia)).
  lia.
Qed.

(** ** Rounding to nearest, ties to even, of a quotient *)

Lemma div_half_even_bounds a b :
  0 < b -> a / b <= div_half_even a b <= a / b + 1.
Proof.
  intros Hb. unfold div_half_even.
  destruct (2 * (a mod b) ?= b); [destruct (Z.even (a / b))| |]; lia.
Qed.

Lemma div_half_even_exact q b : 0 < b -> div_half_even (q * b) b = q.
Proof.
  intros Hb. unfold div_half_even.
  rewrite Z.mod_mul, Z.div_mul by lia.
  replace (2 * 0 ?= b) with Lt by (symmetry; apply Z.compare_lt_iff; lia).
  reflexivity.
Qed.

Lemma div_half_even_mono a a' b :
  0 < b -> a <= a' -> div_half_even a b <= div_half_even a' b.
Proof.
  intros Hb Ha.
  pose proof (Z.div_le_mono a a' b Hb Ha) as Hq.
  pose proof (div_half_even_bounds a b Hb) as [_ U].
  pose proof (div_half_even_bounds a' b Hb) as [L _].
  destruct (Z.eq_dec (a / b) (a' / b)) as [E|N]; [|lia].
  assert (R : a mod b <= a' mod b).
  { pose proof (Z.div_mod a b ltac:(lia)). pose proof (Z.div_mod a' b ltac:(lia)). nia. }
  unfold div_half_even. rewrite <- E.
  destruct (Z.compare_spec (2 * (a mod b)) b), (Z.compare_spec (2 * (a' mod b)) b);
    destruct (Z.even (a / b)); lia.
Qed.

Lemma div_half_even_upper a b c :
  0 < b -> a <= c * b -> div_half_even a b <= c.
Proof.
  intros Hb H. rewrite <- (div_half_even_exact c b Hb).
  now apply div_half_even_mono.
Qed.

Lemma div_half_even_lower a b c :
  0 < b -> c * b <= a -> c <= div_half_even a b.
Proof.
  intros Hb H. rewrite <- (div_half_even_exact c b Hb).
  now apply div_half_even_mono.
Qed.

Lemma located_exact (m : Z) : shr_record_of_loc m loc_Exact = located m 1.
Proof. unfold located, loc_of. now rewrite Z.div_1_r, Z.mod_1_r. Qed.

(** The mantissa the first rounding step yields has at most 54 digits. *)
Lemma rounded_mantissa_bounds V :
  100 <= V ->
  0 <= div_half_even V (W (fexp (mag V))) <= 2 ^ 53
  /\ (- 1074 < fexp (mag V) -> 2 ^ 52 <= div_half_even V (W (fexp (mag V)))).
Proof.
  intros HV.
  pose proof (mag_bounds V HV) as [Lo Hi].
  assert (HK : - K <= fexp (mag V)) by (rewrite fexp_eq; unfold K; lia).
  assert (Hm : - K < mag V).
  { unfold mag. assert (1 <= V / 100) by (apply Z.div_le_lower_bound; lia).
    pose proof (Zdigits2_pos (V / 100)). lia. }
  pose proof (W_pos _ HK) as Wp.
  split; [split|].
  - apply div_half_even_lower; lia.
  - apply div_half_even_upper; [assumption|].
    rewrite <- W_add by lia.
    assert (W (mag V) <= W (fexp (mag V) + 53)) by (apply W_mono; rewrite ?fexp_eq; lia).
    lia.
  - intros Hn. apply div_half_even_lower; [assumption|].
    rewrite <- W_add by lia.
    replace (fexp (mag V) + 52) with (mag V - 1) by (rewrite fexp_eq in *; lia).
    assumption.
Qed.

(** The second [shr_fexp] of [binary_round_aux]: a mantissa of at most 53
    digits stays, the mantissa [2^53] becomes [2^52] one exponent up. *)
Lemma shr_fexp_small (m E : Z) :
  0 <= m < 2 ^ 53 -> - 1074 <= E ->
  shr_fexp prec emax m E loc_Exact = (shr_record_of_loc m loc_Exact, E).
Proof.
  intros Hm HE. unfold shr_fexp, shr.
  assert (Hn : SpecFloat.fexp prec emax (Zdigits2 m + E) - E <= 0).
  { change (SpecFloat.fexp prec emax) with fexp. rewrite fexp_eq.
    destruct (Z.eq_dec m 0) as [->|N]; [simpl; lia|].
    pose proof (Zdigits2_bounds m ltac:(lia)) as [Lo _].
    destruct (Z_le_gt_dec (Zdigits2 m) 53); [lia|].
    assert (2 ^ 53 <= 2 ^ (Zdigits2 m - 1)) by (apply Z.pow_le_mono_r; lia). lia. }
  destruct (SpecFloat.fexp prec emax (Zdigits2 m + E) - E); try reflexivity. lia.
Qed.

Lemma shr_fexp_carry (E : Z) :
  - 1074 <= E ->
  shr_fexp prec emax (2 ^ 53) E loc_Exact = (shr_record_of_loc (2 ^ 52) loc_Exact, E + 1).
Proof.
  intros HE. unfold shr_fexp.
  change (Zdigits2 (2 ^ 53)) with 54.
  change (SpecFloat.fexp prec emax) with fexp. rewrite fexp_eq.
  replace (Z.max (54 + E - 53) (-1074) - E) with 1 by lia.
  reflexivity.
Qed.

(** [binary_round_aux] on a located value is the rounding of that value. *)
Lemma binary_round_aux_RND (V ex : Z) :
  - K <= ex -> 1 <= V / W ex ->
  ex <= fexp (Zdigits2 (V / W ex) + ex) ->
  binary_round_aux prec emax false (V / W ex) ex (loc_of (V mod W ex) (W ex)) = RND V.
Proof.
  intros He Hq Hn.
  pose proof (W_pos ex He) as Wp.
  assert (HV : 100 <= V).
  { pose proof (Z.div_mod V (W ex) ltac:(lia)). pose proof (Z.mod_pos_bound V (W ex) Wp).
    unfold W in *. pose proof (Z.pow_pos_nonneg 2 (ex + K) ltac:(lia) ltac:(lia)). nia. }
  unfold binary_round_aux.
  unfold shr_fexp at 1.
  change (shr_record_of_loc (V / W ex) (loc_of (V mod W ex) (W ex))) with (located V (W ex)).
  change (SpecFloat.fexp prec emax) with fexp.
  rewrite shr_located by lia.
  rewrite <- W_add by lia.
  replace (ex + (fexp (Zdigits2 (V / W ex) + ex) - ex))
    with (fexp (mag V)) by (rewrite mag_of_quotient by assumption; lia).
  assert (HE : - 1074 <= fexp (mag V)) by (rewrite fexp_eq; lia).
  assert (HK : - K <= fexp (mag V)) by (unfold K; lia).
  rewrite round_nearest_even_located by (apply W_pos; assumption).
  pose proof (rounded_mantissa_bounds V HV) as [[L U] _].
  unfold RND.
  destruct (Z.eqb_spec (div_half_even V (W (fexp (mag V)))) (2 ^ 53)) as [C|C].
  - rewrite C, shr_fexp_carry by assumption.
    rewrite shr_m_of_loc. reflexivity.
  - rewrite shr_fexp_small by lia.
    rewrite shr_m_of_loc.
    destruct (div_half_even V (W (fexp (mag V)))); try reflexivity. lia.
Qed.

(** ** The order of the non-negative floats *)

Lemma bounded_facts m e :
  bounded prec emax m e = true ->
  - 1074 <= e <= 971 /\ Zpos m < 2 ^ 53 /\ (- 1074 < e -> 2 ^ 52 <= Zpos m)
  /\ fexp (Zdigits2 (Zpos m) + e) = e.
Proof.
  unfold bounded, canonical_mantissa. intros H.
  apply andb_prop in H as [C B].
  apply Z.eqb_eq in C. apply Z.leb_le in B.
  change (SpecFloat.fexp prec emax) with fexp in C.
  change (emax - prec) with 971 in B.
  pose proof (digits_bounds m) as [Lo Hi].
  change (Zdigits2 (Zpos m)) with (Zpos (digits2_pos m)).
  rewrite fexp_eq in C |- *.
  assert (D : Zpos (digits2_pos m) <= 53) by lia.
  assert (2 ^ Zpos (digits2_pos m) <= 2 ^ 53) by (apply Z.pow_le_mono_r; lia).
  repeat split; try lia.
  intros He. replace (Zpos (digits2_pos m)) with 53 in Lo by lia. exact Lo.
Qed.

Lemma W_1024 : W 1024 = 2 ^ 53 * W 971.
Proof. rewrite <- W_add by (unfold K; lia). reflexivity. Qed.

Lemma finite_below_infinity m e :
  bounded prec emax m e = true -> 0 < Zpos m * W e < W 1024.
Proof.
  intros H. destruct (bounded_facts m e H) as ((He1 & He2) & Hm & _).
  pose proof (W_pos e ltac:(unfold K; lia)) as Wp.
  pose proof (W_mono e 971 ltac:(unfold K; lia) He2) as Wm.
  rewrite W_1024. split; [lia|]. nia.
Qed.

(** On the non-negative floats the comparison of Python is the comparison
    of the values. *)
Lemma compare_uval x y :
  nonneg x = true -> nonneg y = true ->
  SFcompare x y = Some (uval x ?= uval y).
Proof.
  intros Hx Hy.
  destruct x as [sx|[|]| |[|] mx ex]; try discriminate;
    destruct y as [sy|[|]| |[|] my ey]; try discriminate;
    cbn [uval SFcompare nonneg] in *;
    try (pose proof (finite_below_infinity _ _ Hx) as [Px Ix]);
    try (pose proof (finite_below_infinity _ _ Hy) as [Py Iy]);
    try (f_equal; symmetry;
         first [apply Z.compare_eq_iff; reflexivity
               | apply Z.compare_lt_iff; pose proof (W_pos 1024 ltac:(unfold K; lia)); lia
               | apply Z.compare_gt_iff; pose proof (W_pos 1024 ltac:(unfold K; lia)); lia]).
  destruct (bounded_facts _ _ Hx) as ((Hx1 & Hx2) & Mx & Nx & _).
  destruct (bounded_facts _ _ Hy) as ((Hy1 & Hy2) & My & Ny & _).
  f_equal.
  pose proof (W_pos ex ltac:(unfold K; lia)) as Wx.
  pose proof (W_pos ey ltac:(unfold K; lia)) as Wy.
  destruct (Z.compare_spec ex ey) as [E|L|G].
  - subst ey. rewrite Pos.compare_cont_spec. cbn [Pos.switch_Eq].
    change (Pos.compare mx my) with (Zpos mx ?= Zpos my).
    symmetry. destruct (Z.compare_spec (Zpos mx) (Zpos my)) as [E'|L'|G'].
    + apply Z.compare_eq_iff. congruence.
    + apply Z.compare_lt_iff. nia.
    + apply Z.compare_gt_iff. nia.
  - symmetry. apply Z.compare_lt_iff.
    assert (Zpos mx * W ex <= 2 ^ 53 * W ex) by nia.
    assert (2 ^ 52 * W ey <= Zpos my * W ey) by (specialize (Ny ltac:(lia)); nia).
    assert (W (ex + 1) <= W ey) by (apply W_mono; unfold K; lia).
    rewrite W_add in H1 by (unfold K; lia). change (2 ^ 1) with 2 in H1.
    change (2 ^ 53) with (2 ^ 52 * 2) in H. nia.
  - symmetry. apply Z.compare_gt_iff.
    assert (Zpos my * W ey <= 2 ^ 53 * W ey) by nia.
    assert (2 ^ 52 * W ex <= Zpos mx * W ex) by (specialize (Nx ltac:(lia)); nia).
    assert (W (ey + 1) <= W ex) by (apply W_mono; unfold K; lia).
    rewrite W_add in H1 by (unfold K; lia). change (2 ^ 1) with 2 in H1.
    change (2 ^ 53) with (2 ^ 52 * 2) in H. nia.
Qed.

Lemma leb_uval x y :
  nonneg x = true -> nonneg y = true -> Float.leb x y = (uval x <=? uval y).
Proof.
  intros Hx Hy. unfold Float.leb, SFleb. rewrite (compare_uval x y Hx Hy).
  unfold Z.leb. destruct (uval x ?= uval y); reflexivity.
Qed.

Lemma ltb_uval x y :
  nonneg x = true -> nonneg y = true -> Float.ltb x y = (uval x <? uval y).
Proof.
  intros Hx Hy. unfold Float.ltb, SFltb. rewrite (compare_uval x y Hx Hy).
  unfold Z.ltb. destruct (uval x ?= uval y); reflexivity.
Qed.

Lemma uval_nonneg x : nonneg x = true -> 0 <= uval x <= W 1024.
Proof.
  destruct x as [s|[|]| |[|] m e]; try discriminate; cbn [uval nonneg]; intros H;
    try (pose proof (W_pos 1024 ltac:(unfold K; lia)); lia).
  pose proof (finite_below_infinity m e H). lia.
Qed.

(** ** The rounding is a float, and it is monotone *)

Lemma canonical_53 (p : positive) (E : Z) :
  2 ^ 52 <= Zpos p < 2 ^ 53 -> - 1074 <= E ->
  canonical_mantissa prec emax p E = true.
Proof.
  intros Hp HE. unfold canonical_mantissa. apply Z.eqb_eq.
  change (SpecFloat.fexp prec emax) with fexp.
  change (Zpos (digits2_pos p)) with (Zdigits2 (Zpos p)).
  rewrite (digits_unique (Zpos p) 53) by (simpl; lia).
  rewrite fexp_eq. lia.
Qed.

Lemma canonical_subnormal (p : positive) :
  Zpos p < 2 ^ 53 -> canonical_mantissa prec emax p (- 1074) = true.
Proof.
  intros Hp. unfold canonical_mantissa. apply Z.eqb_eq.
  change (SpecFloat.fexp prec emax) with fexp.
  pose proof (digits_bounds p) as [Lo _].
  rewrite fexp_eq.
  destruct (Z_le_gt_dec (Zpos (digits2_pos p)) 53); [lia|].
  assert (2 ^ 53 <= 2 ^ (Zpos (digits2_pos p) - 1)) by (apply Z.pow_le_mono_r; lia). lia.
Qed.

Lemma fexp_ge e : - 1074 <= fexp e.
Proof. rewrite fexp_eq. lia. Qed.

Lemma RND_nonneg V : 100 <= V -> nonneg (RND V) = true.
Proof.
  intros HV. pose proof (rounded_mantissa_bounds V HV) as [[L U] N].
  pose proof (fexp_ge (mag V)) as HE.
  unfold RND.
  destruct (Z.eqb_spec (div_half_even V (W (fexp (mag V)))) (2 ^ 53)) as [C|C].
  - destruct (Z.leb_spec (fexp (mag V) + 1) 971) as [B|B]; [|reflexivity].
    cbn [nonneg]. unfold bounded. apply andb_true_intro. split.
    + apply canonical_53; [simpl; lia|lia].
    + apply Z.leb_le. exact B.
  - destruct (div_half_even V (W (fexp (mag V)))) as [|p|p] eqn:M; try reflexivity.
    destruct (Z.leb_spec (fexp (mag V)) 971) as [B|B]; [|reflexivity].
    cbn [nonneg]. unfold bounded. apply andb_true_intro. split.
    + destruct (Z.eq_dec (fexp (mag V)) (- 1074)) as [E|E].
      * rewrite E. apply canonical_subnormal. lia.
      * apply canonical_53; [|lia]. specialize (N ltac:(lia)). lia.
    + apply Z.leb_le. exact B.
Qed.

Lemma uval_RND V : 100 <= V -> uval (RND V) = rv V.
Proof.
  intros HV. pose proof (rounded_mantissa_bounds V HV) as [[L U] N].
  pose proof (fexp_ge (mag V)) as HE.
  assert (HK : - K <= fexp (mag V)) by (unfold K; lia).
  pose proof (W_pos _ HK) as Wp.
  unfold RND, rv.
  destruct (Z.eqb_spec (div_half_even V (W (fexp (mag V)))) (2 ^ 53)) as [C|C].
  - rewrite C.
    destruct (Z.leb_spec (fexp (mag V) + 1) 971) as [B|B]; cbn [uval].
    + rewrite W_add by lia. change (2 ^ 1) with 2.
      change (Zpos (2 ^ 52)) with (2 ^ 52). change (2 ^ 53) with (2 ^ 52 * 2).
      assert (W (fexp (mag V)) <= W 970) by (apply W_mono; lia).
      rewrite W_1024. assert (W 970 * 2 = W 971).
      { replace 971 with (970 + 1) by reflexivity. rewrite W_add by (unfold K; lia).
        change (2 ^ 1) with 2. ring. }
      lia.
    + assert (W 971 <= W (fexp (mag V))) by (apply W_mono; unfold K; lia).
      rewrite W_1024. lia.
  - destruct (div_half_even V (W (fexp (mag V)))) as [|p|p] eqn:M; cbn [uval]; try lia.
    + pose proof (W_pos 1024 ltac:(unfold K; lia)). lia.
    + destruct (Z.leb_spec (fexp (mag V)) 971) as [B|B]; cbn [uval].
      * assert (W (fexp (mag V)) <= W 971) by (apply W_mono; lia).
        rewrite W_1024. nia.
      * specialize (N ltac:(lia)).
        assert (W 972 <= W (fexp (mag V))) by (apply W_mono; unfold K; lia).
        assert (W 1024 = 2 ^ 52 * W 972).
        { replace 1024 with (972 + 52) by reflexivity. rewrite W_add by (unfold K; lia).
          reflexivity. }
        nia.
Qed.

Lemma mag_mono V V' : 100 <= V -> V <= V' -> mag V <= mag V'.
Proof.
  intros HV HVV. unfold mag.
  assert (1 <= V / 100) by (apply Z.div_le_lower_bound; lia).
  assert (V / 100 <= V' / 100) by (apply Z.div_le_mono; lia).
  pose proof (Zdigits2_mono (V / 100) (V' / 100) ltac:(lia) ltac:(lia)). lia.
Qed.

Lemma rv_mono V V' : 100 <= V -> V <= V' -> rv V <= rv V'.
Proof.
  intros HV HVV. unfold rv. apply Z.min_le_compat_r.
  pose proof (rounded_mantissa_bounds V HV) as [[L U] N].
  pose proof (rounded_mantissa_bounds V' ltac:(lia)) as [[L' U'] N'].
  pose proof (fexp_mono _ _ (mag_mono V V' HV HVV)) as HE.
  pose proof (fexp_ge (mag V)) as G.
  assert (HK : - K <= fexp (mag V)) by (unfold K; lia).
  assert (HK' : - K <= fexp (mag V')) by (unfold K; lia).
  pose proof (W_pos _ HK) as Wp. pose proof (W_pos _ HK') as Wp'.
  destruct (Z.eq_dec (fexp (mag V)) (fexp (mag V'))) as [E|E].
  - rewrite <- E in *.
    pose proof (div_half_even_mono V V' _ Wp HVV). nia.
  - specialize (N' ltac:(lia)).
    assert (W (fexp (mag V) + 1) <= W (fexp (mag V'))) by (apply W_mono; lia).
    rewrite W_add in H by lia. change (2 ^ 1) with 2 in H.
    change (2 ^ 53) with (2 ^ 52 * 2) in U. nia.
Qed.

(** Rounding is monotone for the comparison of Python. *)
Lemma RND_mono V V' : 100 <= V -> V <= V' -> Float.leb (RND V) (RND V') = true.
Proof.
  intros HV HVV.
  rewrite leb_uval by (apply RND_nonneg; lia).
  rewrite !uval_RND by lia. apply Z.leb_le. now apply rv_mono.
Qed.

(** A float rounds to itself. *)
Lemma RND_uval m e :
  bounded prec emax m e = true -> RND (Zpos m * W e) = S754_finite false m e.
Proof.
  intros H. destruct (bounded_facts m e H) as ((He1 & He2) & Hm & Hn & Hc).
  assert (HK : - K <= e) by (unfold K; lia).
  pose proof (W_pos e HK) as Wp.
  assert (Q : Zpos m * W e / W e = Zpos m) by (apply Z.div_mul; lia).
  assert (M : mag (Zpos m * W e) = Zdigits2 (Zpos m) + e).
  { rewrite <- (mag_of_quotient (Zpos m * W e) e); rewrite ?Q; try lia. }
  unfold RND. rewrite M, Hc, div_half_even_exact by assumption.
  destruct (Z.eqb_spec (Zpos m) (2 ^ 53)) as [C|C]; [lia|].
  destruct (Z.leb_spec e 971); [reflexivity|lia].
Qed.

(** ** The arithmetic operations round the exact result *)

Lemma iter_xO (m d : positive) : Zpos (Pos.iter xO m d) = Zpos m * 2 ^ Zpos d.
Proof.
  induction d as [|d IH] using Pos.peano_ind.
  - simpl. lia.
  - rewrite Pos.iter_succ, Pos2Z.inj_xO, IH, Pos2Z.inj_succ, Z.pow_succ_r by lia. ring.
Qed.

Lemma shl_align_spec (m : positive) (e e' : Z) :
  let '(m', e'') := shl_align m e e' in
  e'' = Z.min e e' /\ Zpos m' = Zpos m * 2 ^ (e - e'').
Proof.
  unfold shl_align.
  destruct (e' - e) as [|d|d] eqn:D.
  - split; [lia|]. replace (e - e) with 0 by lia. lia.
  - split; [lia|]. replace (e - e) with 0 by lia. lia.
  - split; [lia|]. rewrite iter_xO. replace (e - e') with (Zpos d) by lia. reflexivity.
Qed.

Lemma loc_of_0 Wd : loc_of 0 Wd = loc_Exact.
Proof. reflexivity. Qed.

Lemma Zdigits2_mul_pow2 (m n : Z) :
  0 < m -> 0 <= n -> Zdigits2 (m * 2 ^ n) = Zdigits2 m + n.
Proof.
  intros Hm Hn.
  pose proof (Z.pow_pos_nonneg 2 n ltac:(lia) Hn) as P.
  rewrite (digits_shift (m * 2 ^ n) n) by (rewrite ?Z.div_mul; lia).
  rewrite Z.div_mul by lia. reflexivity.
Qed.

(** [binary_round] of a positive mantissa. *)
Lemma binary_round_RND (m : positive) (e : Z) :
  - 1074 <= e -> binary_round prec emax false m e = RND (Zpos m * W e).
Proof.
  intros He. unfold binary_round.
  change (SpecFloat.fexp prec emax) with fexp.
  change (Zpos (digits2_pos m)) with (Zdigits2 (Zpos m)).
  pose proof (shl_align_spec m e (fexp (Zdigits2 (Zpos m) + e))) as S.
  destruct (shl_align m e (fexp (Zdigits2 (Zpos m) + e))) as [mz ez].
  destruct S as [Ez Mz].
  pose proof (fexp_ge (Zdigits2 (Zpos m) + e)) as G.
  assert (HK : - K <= ez) by (unfold K; lia).
  pose proof (W_pos ez HK) as Wp.
  assert (V : Zpos m * W e = Zpos mz * W ez).
  { rewrite Mz. replace e with (ez + (e - ez)) at 1 by lia.
    rewrite W_add by lia. ring. }
  rewrite V.
  rewrite <- (binary_round_aux_RND (Zpos mz * W ez) ez HK).
  - rewrite Z.div_mul, Z.mod_mul by lia. reflexivity.
  - rewrite Z.div_mul by lia. lia.
  - rewrite Z.div_mul by lia.
    rewrite Mz, Zdigits2_mul_pow2 by lia.
    replace (Zdigits2 (Zpos m) + (e - ez) + ez) with (Zdigits2 (Zpos m) + e) by lia.
    lia.
Qed.

Lemma binary_normalize_RND (S e : Z) :
  0 < S -> - 1074 <= e -> binary_normalize prec emax S e false = RND (S * W e).
Proof.
  intros HS He. destruct S as [|p|p]; try lia.
  now apply binary_round_RND.
Qed.

(** The value of a finite float is a multiple of the units of its
    exponent, and of every smaller exponent. *)
Lemma uval_aligned (m : positive) (e ez : Z) :
  - K <= ez -> ez <= e ->
  Zpos (fst (shl_align m e ez)) * W ez = Zpos m * W e.
Proof.
  intros Hz He.
  pose proof (shl_align_spec m e ez) as S.
  destruct (shl_align m e ez) as [m' e']. destruct S as [E M]. cbn [fst].
  rewrite M. replace e' with ez by lia.
  replace e with (ez + (e - ez)) at 2 by lia.
  rewrite W_add by lia. ring.
Qed.

(** Addition of two positive finite floats. *)
Lemma add_finite mx ex my ey :
  bounded prec emax mx ex = true -> bounded prec emax my ey = true ->
  Float.add (S754_finite false mx ex) (S754_finite false my ey)
  = RND (Zpos mx * W ex + Zpos my * W ey).
Proof.
  intros Hx Hy.
  destruct (bounded_facts _ _ Hx) as ((Hx1 & Hx2) & _).
  destruct (bounded_facts _ _ Hy) as ((Hy1 & Hy2) & _).
  unfold Float.add, SFadd. cbn [cond_Zopp].
  assert (HK : - K <= Z.min ex ey) by (unfold K; lia).
  rewrite binary_normalize_RND by lia.
  rewrite Z.mul_add_distr_r, !uval_aligned by lia. reflexivity.
Qed.

(** Subtraction of a smaller positive finite float. *)
Lemma sub_finite mx ex my ey :
  bounded prec emax mx ex = true -> bounded prec emax my ey = true ->
  Zpos my * W ey < Zpos mx * W ex ->
  Float.sub (S754_finite false mx ex) (S754_finite false my ey)
  = RND (Zpos mx * W ex - Zpos my * W ey).
Proof.
  intros Hx Hy Hlt.
  destruct (bounded_facts _ _ Hx) as ((Hx1 & Hx2) & _).
  destruct (bounded_facts _ _ Hy) as ((Hy1 & Hy2) & _).
  unfold Float.sub, SFsub. cbn [cond_Zopp].
  assert (HK : - K <= Z.min ex ey) by (unfold K; lia).
  pose proof (W_pos _ HK) as Wp.
  pose proof (uval_aligned mx ex (Z.min ex ey) HK ltac:(lia)) as Ax.
  pose proof (uval_aligned my ey (Z.min ex ey) HK ltac:(lia)) as Ay.
  rewrite binary_normalize_RND by (try lia; nia).
  rewrite Z.mul_sub_distr_r, Ax, Ay. reflexivity.
Qed.

Lemma digits_ge_53 (m : Z) : 2 ^ 52 <= m -> 53 <= Zdigits2 m.
Proof.
  intros H. change 53 with (Zdigits2 (2 ^ 52)). apply Zdigits2_mono; [reflexivity|exact H].
Qed.

Lemma W_mul a b : - K <= a -> - K <= b -> - K <= a + b -> W a * W b = W (a + b) * W 0.
Proof.
  intros Ha Hb Hab. unfold W. unfold K in *.
  replace (a + b + 2148) with ((a + 2148) + b) by lia.
  replace (0 + 2148) with 2148 by lia.
  assert (2 ^ (a + 2148) * 2 ^ (b + 2148) = 2 ^ (a + 2148 + b) * 2 ^ 2148).
  { rewrite <- !Z.pow_add_r by lia. f_equal. lia. }
  nia.
Qed.

(** Multiplication of two positive finite floats. *)
Lemma mul_finite mx ex my ey :
  bounded prec emax mx ex = true -> bounded prec emax my ey = true ->
  Float.mul (S754_finite false mx ex) (S754_finite false my ey)
  = RND (Zpos mx * W ex * (Zpos my * W ey) / W 0).
Proof.
  intros Hx Hy.
  destruct (bounded_facts _ _ Hx) as ((Hx1 & Hx2) & Mx & Nx & _).
  destruct (bounded_facts _ _ Hy) as ((Hy1 & Hy2) & My & Ny & _).
  unfold Float.mul, SFmul. cbn [xorb].
  assert (HK : - K <= ex + ey) by (unfold K; lia).
  pose proof (W_pos _ HK) as Wp.
  pose proof (W_pos 0 ltac:(unfold K; lia)) as W0.
  assert (V : Zpos mx * W ex * (Zpos my * W ey) / W 0 = Zpos (mx * my) * W (ex + ey)).
  { replace (Zpos mx * W ex * (Zpos my * W ey)) with (Zpos (mx * my) * (W ex * W ey))
      by (rewrite Pos2Z.inj_mul; ring).
    rewrite W_mul by (unfold K; lia).
    rewrite Z.mul_assoc, Z.div_mul by lia. reflexivity. }
  rewrite V.
  rewrite <- (binary_round_aux_RND (Zpos (mx * my) * W (ex + ey)) (ex + ey) HK).
  - rewrite Z.div_mul, Z.mod_mul by lia. reflexivity.
  - rewrite Z.div_mul by lia. lia.
  - rewrite Z.div_mul by lia. rewrite fexp_eq.
    destruct (Z.eq_dec ex (- 1074)) as [Ex|Ex], (Z.eq_dec ey (- 1074)) as [Ey|Ey]; try lia.
    + specialize (Ny ltac:(lia)).
      assert (53 <= Zdigits2 (Zpos (mx * my))) by (apply digits_ge_53; rewrite Pos2Z.inj_mul; nia).
      lia.
    + specialize (Nx ltac:(lia)).
      assert (53 <= Zdigits2 (Zpos (mx * my))) by (apply digits_ge_53; rewrite Pos2Z.inj_mul; nia).
      lia.
    + specialize (Nx ltac:(lia)). specialize (Ny ltac:(lia)).
      assert (53 <= Zdigits2 (Zpos (mx * my))) by (apply digits_ge_53; rewrite Pos2Z.inj_mul; nia).
      lia.
Qed.

Lemma loc_of_scale r b c : 0 < c -> loc_of (r * c) (b * c) = loc_of r b.
Proof.
  intros Hc. unfold loc_of.
  destruct (Z.eqb_spec r 0) as [->|N].
  - reflexivity.
  - replace (r * c =? 0) with false by (symmetry; apply Z.eqb_neq; nia).
    f_equal. rewrite Z.mul_assoc. symmetry. apply Zmult_compare_compat_r. lia.
Qed.

Lemma shift_by (n : positive) (s : Z) :
  0 <= s ->
  match s with Z.pos _ => Z.shiftl (Zpos n) s | 0 => Zpos n | Z.neg _ => 0 end
  = Zpos n * 2 ^ s.
Proof.
  intros Hs. destruct s as [|p|p]; try lia.
  rewrite Z.shiftl_mul_pow2 by lia. reflexivity.
Qed.

(** The hundredths: [n / 100] rounded to the nearest float. *)
Lemma nearest_ratio_RND (n : positive) :
  nearest_ratio false n 100 = RND (Zpos n * 2 ^ K).
Proof.
  unfold nearest_ratio, SFdiv_core_binary.
  change (SpecFloat.fexp prec emax) with fexp.
  change (Zdigits2 100) with 7.
  set (d := Zdigits2 (Zpos n)).
  assert (Hd : 0 < d) by (apply Zdigits2_pos; lia).
  pose proof (Zdigits2_bounds (Zpos n) ltac:(lia)) as [Lo Hi]. fold d in Lo, Hi.
  replace (Z.min (fexp (d + 0 - (7 + 0))) (0 - 0)) with (Z.min (d - 60) 0)
    by (rewrite fexp_eq; lia).
  set (e := Z.min (d - 60) 0).
  set (s := 0 - 0 - e).
  assert (Hs : 0 <= s) by (unfold s, e; lia).
  assert (Hm : match s with Z.pos _ => Z.shiftl (Zpos n) s | 0 => Zpos n | Z.neg _ => 0 end
               = Zpos n * 2 ^ s).
  { apply shift_by. exact Hs. }
  rewrite Hm.
  pose proof (Z.pow_pos_nonneg 2 s ltac:(lia) Hs) as Ps.
  assert (HQ : Z.div_eucl (Zpos n * 2 ^ s) 100
               = ((Zpos n * 2 ^ s) / 100, (Zpos n * 2 ^ s) mod 100)).
  { unfold Z.div, Z.modulo. destruct (Z.div_eucl (Zpos n * 2 ^ s) 100). reflexivity. }
  rewrite HQ.
  assert (HK : - K <= e) by (unfold e, K; lia).
  pose proof (W_pos e HK) as Wp.
  set (c := 2 ^ (e + K)).
  assert (Pc : 0 < c) by (apply Z.pow_pos_nonneg; lia).
  assert (V : Zpos n * 2 ^ K = Zpos n * 2 ^ s * c).
  { unfold c. rewrite <- Z.mul_assoc, <- Z.pow_add_r by lia. do 2 f_equal. unfold s. lia. }
  assert (HW : W e = 100 * c) by reflexivity.
  assert (Qe : Zpos n * 2 ^ K / W e = Zpos n * 2 ^ s / 100).
  { rewrite V, HW. apply Z.div_mul_cancel_r; lia. }
  assert (Re : (Zpos n * 2 ^ K) mod W e = (Zpos n * 2 ^ s) mod 100 * c).
  { rewrite V, HW. apply Z.mul_mod_distr_r; lia. }
  assert (Big : 2 ^ 52 <= Zpos n * 2 ^ s / 100).
  { apply Z.div_le_lower_bound; [lia|].
    assert (2 ^ 59 <= Zpos n * 2 ^ s).
    { assert (2 ^ (d - 1) * 2 ^ s <= Zpos n * 2 ^ s) by nia.
      rewrite <- Z.pow_add_r in H by lia.
      assert (2 ^ 59 <= 2 ^ (d - 1 + s)) by (apply Z.pow_le_mono_r; unfold s, e; lia).
      lia. }
    change (2 ^ 59) with (128 * 2 ^ 52) in H. lia. }
  assert (HL : new_location 100 ((Zpos n * 2 ^ s) mod 100)
               = loc_of ((Zpos n * 2 ^ K) mod W e) (W e)).
  { rewrite Re, HW, loc_of_scale by assumption. reflexivity. }
  rewrite HL, <- Qe.
  apply binary_round_aux_RND; [assumption| |].
  - rewrite Qe. lia.
  - rewrite Qe. pose proof (digits_ge_53 _ Big) as D53.
    assert (Dq : d - 7 + s <= Zdigits2 (Zpos n * 2 ^ s / 100)).
    { destruct (Z_le_gt_dec (d - 7 + s) (Zdigits2 (Zpos n * 2 ^ s / 100))) as [|G]; [assumption|].
      pose proof (Zdigits2_bounds (Zpos n * 2 ^ s / 100) ltac:(lia)) as [_ U].
      assert (2 ^ Zdigits2 (Zpos n * 2 ^ s / 100) <= 2 ^ (d - 8 + s))
        by (apply Z.pow_le_mono_r; lia).
      assert (2 ^ (d - 8 + s) * 100 <= Zpos n * 2 ^ s).
      { assert (2 ^ (d - 1) * 2 ^ s <= Zpos n * 2 ^ s) by nia.
        rewrite <- Z.pow_add_r in H0 by lia.
        replace (d - 1 + s) with (d - 8 + s + 7) in H0 by lia.
        rewrite Z.pow_add_r in H0 by (unfold s, e; lia).
        change (2 ^ 7) with 128 in H0. nia. }
      assert (2 ^ (d - 8 + s) <= Zpos n * 2 ^ s / 100) by (apply Z.div_le_lower_bound; lia).
      lia. }
    rewrite fexp_eq. unfold s, e in *. lia.
Qed.

(** ** The operations on the non-negative floats *)

Lemma at_most_leb x y : at_most x y -> Float.leb x y = true.
Proof. intros (Hx & Hy & H). rewrite leb_uval by assumption. now apply Z.leb_le. Qed.

Lemma at_most_refl x : nonneg x = true -> at_most x x.
Proof. intros H. repeat split; try assumption. lia. Qed.

Lemma at_most_trans x y z : at_most x y -> at_most y z -> at_most x z.
Proof. intros (Hx & Hy & H) (_ & Hz & H'). repeat split; try assumption. lia. Qed.

(** The value of a non-negative float is zero or at least a unit of the
    smallest exponent. *)
Lemma uval_zero_or_large x : nonneg x = true -> uval x = 0 \/ 100 <= uval x.
Proof.
  destruct x as [s|[|]| |[|] m e]; try discriminate; cbn [nonneg uval]; intros H.
  - now left.
  - right. unfold W. pose proof (Z.pow_pos_nonneg 2 (1024 + K)). unfold K in *. lia.
  - right. destruct (bounded_facts m e H) as ((He & _) & _).
    unfold W. pose proof (Z.pow_pos_nonneg 2 (e + K)). unfold K in *. nia.
Qed.

Lemma rv_0 : rv 0 = 0.
Proof.
  unfold rv. cbn [mag Z.div]. change (div_half_even 0 (W (fexp (mag 0)))) with 0.
  pose proof (W_pos 1024 ltac:(unfold K; lia)). lia.
Qed.

Lemma rv_range V : 0 <= V -> 0 <= rv V <= W 1024.
Proof.
  intros HV. unfold rv.
  pose proof (fexp_ge (mag V)) as G.
  pose proof (W_pos (fexp (mag V)) ltac:(unfold K; lia)) as Wp.
  pose proof (W_pos 1024 ltac:(unfold K; lia)) as Wt.
  pose proof (div_half_even_bounds V _ Wp) as [L _].
  pose proof (Z.div_pos V _ HV Wp). split; [|lia].
  apply Z.min_glb; [nia|lia].
Qed.

(** Rounding is monotone on the values that occur. *)
Lemma rv_le V V' : V = 0 \/ 100 <= V -> V <= V' -> rv V <= rv V'.
Proof.
  intros [->|HV] HVV.
  - rewrite rv_0. apply rv_range. exact HVV.
  - now apply rv_mono.
Qed.

Lemma rv_W1024 : rv (W 1024) = W 1024.
Proof. vm_compute. reflexivity. Qed.

Lemma rv_top V : W 1024 <= V -> rv V = W 1024.
Proof.
  intros H. apply Z.le_antisymm.
  - apply rv_range. pose proof (W_pos 1024 ltac:(unfold K; lia)). lia.
  - rewrite <- rv_W1024 at 1. apply rv_mono; [|exact H].
    unfold W. pose proof (Z.pow_pos_nonneg 2 (1024 + K)). unfold K in *. lia.
Qed.

(** A float is its own rounding. *)
Lemma rv_float x : nonneg x = true -> rv (uval x) = uval x.
Proof.
  destruct x as [s|[|]| |[|] m e]; try discriminate; cbn [nonneg uval]; intros H.
  - apply rv_0.
  - apply rv_W1024.
  - rewrite <- uval_RND.
    + now rewrite RND_uval.
    + destruct (uval_zero_or_large (S754_finite false m e) H) as [Z|L]; cbn [uval] in *.
      * pose proof (finite_below_infinity m e H). lia.
      * exact L.
Qed.

Lemma RND_spec V : 100 <= V -> nonneg (RND V) = true /\ uval (RND V) = rv V.
Proof. intros H. split; [now apply RND_nonneg | now apply uval_RND]. Qed.

(** Addition. *)
Lemma add_spec x y :
  nonneg x = true -> nonneg y = true ->
  nonneg (Float.add x y) = true /\ uval (Float.add x y) = rv (uval x + uval y).
Proof.
  intros Hx Hy.
  pose proof (rv_float x Hx) as Rx. pose proof (rv_float y Hy) as Ry.
  pose proof (uval_nonneg x Hx) as Bx. pose proof (uval_nonneg y Hy) as By.
  destruct x as [sx|[|]| |[|] mx ex]; try discriminate Hx;
    destruct y as [sy|[|]| |[|] my ey]; try discriminate Hy.
  - unfold Float.add, SFadd. destruct sx, sy; cbn [nonneg uval]; rewrite Z.add_0_l, rv_0; auto.
  - cbn [Float.add SFadd uval nonneg] in *. split; [reflexivity|].
    rewrite Z.add_0_l. symmetry. assumption.
  - cbn [Float.add SFadd uval nonneg] in *. split; [assumption|].
    rewrite Z.add_0_l. symmetry. assumption.
  - cbn [Float.add SFadd uval nonneg] in *. split; [reflexivity|].
    rewrite Z.add_0_r. symmetry. assumption.
  - cbn [Float.add SFadd uval nonneg] in *. split; [reflexivity|].
    symmetry. apply rv_top. lia.
  - cbn [Float.add SFadd uval nonneg] in *. split; [reflexivity|].
    symmetry. apply rv_top. lia.
  - cbn [Float.add SFadd uval nonneg] in *. split; [assumption|].
    rewrite Z.add_0_r. symmetry. assumption.
  - cbn [Float.add SFadd uval nonneg] in *. split; [reflexivity|].
    symmetry. apply rv_top. lia.
  - rewrite add_finite by assumption.
    apply RND_spec. cbn [uval nonneg] in *.
    destruct (uval_zero_or_large (S754_finite false mx ex) Hx) as [Z|L]; cbn [uval] in *; [|lia].
    pose proof (finite_below_infinity mx ex Hx). lia.
Qed.

Lemma finite_nonneg_nonneg x : finite_nonneg x = true -> nonneg x = true.
Proof. destruct x as [s|[|]| |[|] m e]; try discriminate; auto. Qed.

Lemma positive_finite_nonneg x : positive_finite x = true -> nonneg x = true.
Proof. destruct x as [s|[|]| |[|] m e]; try discriminate; auto. Qed.

Lemma at_most_top x : nonneg x = true -> at_most x (S754_infinity false).
Proof.
  intros H. repeat split; [assumption|]. apply (uval_nonneg x H).
Qed.

Lemma add_mono t t' a a' : at_most t t' -> at_most a a' -> at_most (Float.add t a) (Float.add t' a').
Proof.
  intros (Ht & Ht' & H) (Ha & Ha' & H').
  destruct (add_spec t a Ht Ha) as [N1 U1], (add_spec t' a' Ht' Ha') as [N2 U2].
  repeat split; try assumption. rewrite U1, U2.
  apply rv_le; [|lia].
  destruct (uval_zero_or_large t Ht), (uval_zero_or_large a Ha);
    pose proof (uval_nonneg t Ht); pose proof (uval_nonneg a Ha); lia.
Qed.

(** Adding a non-negative amount does not lower a total. *)
Lemma add_increases t a : nonneg t = true -> nonneg a = true -> at_most t (Float.add t a).
Proof.
  intros Ht Ha. destruct (add_spec t a Ht Ha) as [N U].
  repeat split; try assumption. rewrite U, <- (rv_float t Ht) at 1.
  apply rv_le; [apply uval_zero_or_large; assumption|].
  pose proof (uval_nonneg a Ha). lia.
Qed.

(** The difference of two finite floats is a whole number of the units of
    the smaller exponent. *)
Lemma difference_large mx ex my ey :
  bounded prec emax mx ex = true -> bounded prec emax my ey = true ->
  Zpos my * W ey < Zpos mx * W ex -> 100 <= Zpos mx * W ex - Zpos my * W ey.
Proof.
  intros Hx Hy Hlt.
  destruct (bounded_facts _ _ Hx) as ((Hx1 & Hx2) & _).
  destruct (bounded_facts _ _ Hy) as ((Hy1 & Hy2) & _).
  assert (HK : - K <= Z.min ex ey) by (unfold K; lia).
  rewrite <- (uval_aligned mx ex (Z.min ex ey)), <- (uval_aligned my ey (Z.min ex ey)) in * by lia.
  assert (100 <= W (Z.min ex ey)).
  { unfold W. pose proof (Z.pow_pos_nonneg 2 (Z.min ex ey + K)). unfold K in *. lia. }
  set (A := Zpos (fst (shl_align mx ex (Z.min ex ey)))) in *.
  set (B := Zpos (fst (shl_align my ey (Z.min ex ey)))) in *.
  set (U := W (Z.min ex ey)) in *.
  assert (B < A) by nia.
  replace (A * U - B * U) with ((A - B) * U) by ring.
  assert (1 * U <= (A - B) * U) by (apply Z.mul_le_mono_nonneg_r; lia).
  lia.
Qed.

(** Subtraction of a smaller finite float. *)
Lemma sub_mono x x' c :
  at_most x x' -> finite_nonneg c = true -> uval c < uval x ->
  at_most (Float.sub x c) (Float.sub x' c).
Proof.
  intros (Hx & Hx' & H) Hc Hlt.
  assert (S : forall y, nonneg y = true -> uval c < uval y ->
              nonneg (Float.sub y c) = true
              /\ (y = S754_infinity false /\ Float.sub y c = S754_infinity false
                  \/ y <> S754_infinity false /\ uval (Float.sub y c) = rv (uval y - uval c))).
  { intros y Hy Hl.
    destruct y as [sy|[|]| |[|] my ey]; try discriminate Hy.
    - cbn [uval] in Hl. pose proof (uval_nonneg c (finite_nonneg_nonneg c Hc)). lia.
    - split; [destruct c as [sc|[|]| |[|] mc ec]; try discriminate Hc; reflexivity|].
      left. split; [reflexivity|].
      destruct c as [sc|[|]| |[|] mc ec]; try discriminate Hc; reflexivity.
    - destruct c as [sc|[|]| |[|] mc ec]; try discriminate Hc.
      + cbn [Float.sub SFsub uval]. split; [assumption|]. right.
        split; [discriminate|]. cbn [uval]. rewrite Z.sub_0_r.
        symmetry. apply (rv_float (S754_finite false my ey) Hy).
      + cbn [uval finite_nonneg nonneg] in *.
        rewrite sub_finite by assumption.
        pose proof (difference_large my ey mc ec Hy Hc Hl).
        split; [now apply RND_nonneg|]. right. split; [discriminate|]. now apply uval_RND. }
  assert (Hlt' : uval c < uval x') by lia.
  destruct (S x Hx Hlt) as [N1 U1], (S x' Hx' Hlt') as [N2 U2].
  repeat split; try assumption.
  destruct U2 as [[E2 I2]|[F2 V2]].
  - rewrite I2. apply (uval_nonneg _ N1).
  - destruct U1 as [[E1 I1]|[F1 V1]].
    + subst x. cbn [uval] in H.
      destruct x' as [sy|[|]| |[|] my ey]; try discriminate Hx'; try congruence.
      * cbn [uval] in H. pose proof (W_pos 1024 ltac:(unfold K; lia)). lia.
      * pose proof (finite_below_infinity my ey Hx'). cbn [uval] in H. lia.
    + rewrite V1, V2. apply rv_le; [|lia].
      right.
      destruct x as [sy|[|]| |[|] my ey]; try discriminate Hx; try congruence.
      * cbn [uval] in Hlt. pose proof (uval_nonneg c (finite_nonneg_nonneg c Hc)). lia.
      * destruct c as [sc|[|]| |[|] mc ec]; try discriminate Hc.
        -- cbn [uval]. rewrite Z.sub_0_r.
           destruct (uval_zero_or_large (S754_finite false my ey) Hx) as [Z|L]; cbn [uval] in *; lia.
        -- cbn [uval finite_nonneg nonneg] in *. now apply difference_large.
Qed.

Lemma sub_nonneg x c :
  nonneg x = true -> finite_nonneg c = true -> uval c < uval x ->
  nonneg (Float.sub x c) = true.
Proof. intros Hx Hc Hlt. apply (sub_mono x x c); [now apply at_most_refl|assumption..]. Qed.

Lemma product_large mx ex my ey :
  bounded prec emax mx ex = true -> bounded prec emax my ey = true ->
  100 <= Zpos mx * W ex * (Zpos my * W ey) / W 0.
Proof.
  intros Hx Hy.
  destruct (bounded_facts _ _ Hx) as ((Hx1 & Hx2) & _).
  destruct (bounded_facts _ _ Hy) as ((Hy1 & Hy2) & _).
  pose proof (W_pos 0 ltac:(unfold K; lia)) as W0.
  replace (Zpos mx * W ex * (Zpos my * W ey)) with (Zpos (mx * my) * (W ex * W ey))
    by (rewrite Pos2Z.inj_mul; ring).
  rewrite W_mul by (unfold K; lia).
  rewrite Z.mul_assoc, Z.div_mul by lia.
  assert (100 <= W (ex + ey)).
  { unfold W. pose proof (Z.pow_pos_nonneg 2 (ex + ey + K)). unfold K in *. lia. }
  nia.
Qed.

(** Multiplication by a positive finite rate. *)
Lemma mul_mono x x' r :
  at_most x x' -> positive_finite r = true -> at_most (Float.mul x r) (Float.mul x' r).
Proof.
  intros (Hx & Hx' & H) Hr.
  destruct r as [sr|[|]| |[|] mr er]; try discriminate Hr. cbn [positive_finite] in Hr.
  assert (S : forall y, nonneg y = true ->
              nonneg (Float.mul y (S754_finite false mr er)) = true
              /\ (y = S754_infinity false
                  /\ Float.mul y (S754_finite false mr er) = S754_infinity false
                  \/ y <> S754_infinity false
                     /\ uval (Float.mul y (S754_finite false mr er))
                        = rv (uval y * (Zpos mr * W er) / W 0))).
  { intros y Hy.
    destruct y as [sy|[|]| |[|] my ey]; try discriminate Hy.
    - split; [reflexivity|]. right. split; [discriminate|].
      cbn [Float.mul SFmul uval]. rewrite Z.mul_0_l.
      change (0 / W 0) with 0. now rewrite rv_0.
    - split; [reflexivity|]. left. split; reflexivity.
    - cbn [nonneg] in Hy. rewrite mul_finite by assumption.
      pose proof (product_large my ey mr er Hy Hr).
      split; [now apply RND_nonneg|]. right. split; [discriminate|]. now apply uval_RND. }
  destruct (S x Hx) as [N1 U1], (S x' Hx') as [N2 U2].
  repeat split; try assumption.
  destruct U2 as [[E2 I2]|[F2 V2]].
  - rewrite I2. apply (uval_nonneg _ N1).
  - destruct U1 as [[E1 I1]|[F1 V1]].
    + subst x. cbn [uval] in H.
      destruct x' as [sy|[|]| |[|] my ey]; try discriminate Hx'; try congruence.
      * cbn [uval] in H. pose proof (W_pos 1024 ltac:(unfold K; lia)). lia.
      * pose proof (finite_below_infinity my ey Hx'). cbn [uval] in H. lia.
    + rewrite V1, V2.
      pose proof (W_pos 0 ltac:(unfold K; lia)) as W0.
      pose proof (finite_below_infinity mr er Hr) as [Pr _].
      apply rv_le.
      * destruct x as [sy|[|]| |[|] my ey]; try discriminate Hx; try congruence.
        -- left. cbn [uval]. rewrite Z.mul_0_l. reflexivity.
        -- right. cbn [uval nonneg] in *. now apply product_large.
      * apply Z.div_le_mono; [lia|]. apply Z.mul_le_mono_nonneg_r; lia.
Qed.

Lemma mul_nonneg x r :
  nonneg x = true -> positive_finite r = true -> nonneg (Float.mul x r) = true.
Proof. intros Hx Hr. apply (mul_mono x x r); [now apply at_most_refl|assumption]. Qed.

(** [min] of Python. *)
Lemma min_spec a b :
  nonneg a = true -> nonneg b = true ->
  nonneg (Float.min a b) = true /\ uval (Float.min a b) = Z.min (uval a) (uval b).
Proof.
  intros Ha Hb. unfold Float.min. rewrite ltb_uval by assumption.
  destruct (Z.ltb_spec (uval b) (uval a)); split; try assumption; lia.
Qed.

Lemma min_mono a a' b :
  at_most a a' -> nonneg b = true -> at_most (Float.min a b) (Float.min a' b).
Proof.
  intros (Ha & Ha' & H) Hb.
  destruct (min_spec a b Ha Hb) as [N1 U1], (min_spec a' b Ha' Hb) as [N2 U2].
  repeat split; try assumption. lia.
Qed.

(** ** [round(x, 2)] *)

Lemma div_half_even_scale a b c :
  0 < b -> 0 < c -> div_half_even (a * c) (b * c) = div_half_even a b.
Proof.
  intros Hb Hc. unfold div_half_even.
  rewrite Z.div_mul_cancel_r, Z.mul_mod_distr_r by lia.
  rewrite Z.mul_assoc.
  replace (2 * (a mod b) * c ?= b * c) with (2 * (a mod b) ?= b)
    by (apply Zmult_compare_compat_r; lia).
  reflexivity.
Qed.

(** The cents of a float are the rounding of its value to units of a
    hundredth. *)
Lemma cents_uval m e :
  - 1074 <= e -> cents m e = div_half_even (Zpos m * W e) (2 ^ K).
Proof.
  intros He. unfold cents, W.
  destruct e as [|p|p].
  - rewrite Z.add_0_l, Z.mul_assoc, div_half_even_exact by (apply Z.pow_pos_nonneg; unfold K; lia).
    rewrite Z.pow_0_r. ring.
  - replace (Zpos p + K) with (K + Zpos p) by lia.
    rewrite (Z.pow_add_r 2 K) by (unfold K; lia).
    replace (Zpos m * (100 * (2 ^ K * 2 ^ Zpos p))) with (Zpos m * 100 * 2 ^ Zpos p * 2 ^ K) by ring.
    rewrite div_half_even_exact by (apply Z.pow_pos_nonneg; unfold K; lia).
    reflexivity.
  - assert (Hp : Zpos p <= 1074) by lia.
    assert (E : 2 ^ K = 2 ^ Zpos p * 2 ^ (Zneg p + K)).
    { rewrite <- Z.pow_add_r by (unfold K; lia). f_equal. lia. }
    rewrite E, Z.mul_assoc.
    apply eq_sym, div_half_even_scale; apply Z.pow_pos_nonneg; unfold K; lia.
Qed.

Lemma cents_nonneg m e : - 1074 <= e -> 0 <= cents m e.
Proof.
  intros He. rewrite cents_uval by assumption.
  assert (P : 0 < 2 ^ K) by (apply Z.pow_pos_nonneg; unfold K; lia).
  pose proof (div_half_even_bounds (Zpos m * W e) (2 ^ K) P) as [L _].
  pose proof (W_pos e ltac:(unfold K; lia)).
  assert (0 <= Zpos m * W e / 2 ^ K) by (apply Z.div_pos; lia). lia.
Qed.

(** The value of [round(x, 2)]: the value is rounded to hundredths, and
    the hundredths to a float. *)
Lemma round2_spec x :
  nonneg x = true ->
  nonneg (round2 x) = true
  /\ uval (round2 x) = rv (div_half_even (uval x) (2 ^ K) * 2 ^ K).
Proof.
  intros Hx.
  assert (P : 0 < 2 ^ K) by (apply Z.pow_pos_nonneg; unfold K; lia).
  destruct x as [sy|[|]| |[|] m e]; try discriminate Hx.
  - split; [reflexivity|]. cbn [round2 uval].
    change (div_half_even 0 (2 ^ K)) with 0. now rewrite Z.mul_0_l, rv_0.
  - split; [reflexivity|]. cbn [round2 uval].
    replace (W 1024) with (100 * 2 ^ 1024 * 2 ^ K)
      by (unfold W; rewrite Z.pow_add_r by (unfold K; lia); ring).
    rewrite div_half_even_exact by assumption.
    replace (100 * 2 ^ 1024 * 2 ^ K) with (W 1024)
      by (unfold W; rewrite Z.pow_add_r by (unfold K; lia); ring).
    symmetry. apply rv_W1024.
  - cbn [nonneg] in Hx. destruct (bounded_facts m e Hx) as ((He & _) & _).
    pose proof (cents_nonneg m e He) as Cn.
    cbn [round2 uval]. rewrite <- cents_uval by assumption.
    destruct (cents m e) as [|n|n]; try lia.
    + split; [reflexivity|]. now rewrite Z.mul_0_l, rv_0.
    + rewrite nearest_ratio_RND.
      apply RND_spec.
      assert (100 <= 2 ^ K) by (vm_compute; discriminate). nia.
Qed.

Lemma round2_mono x x' : at_most x x' -> at_most (round2 x) (round2 x').
Proof.
  intros (Hx & Hx' & H).
  destruct (round2_spec x Hx) as [N1 U1], (round2_spec x' Hx') as [N2 U2].
  repeat split; try assumption. rewrite U1, U2.
  assert (P : 0 < 2 ^ K) by (apply Z.pow_pos_nonneg; unfold K; lia).
  pose proof (div_half_even_mono _ _ _ P H) as M.
  pose proof (uval_nonneg x Hx) as [B _].
  pose proof (div_half_even_bounds (uval x) _ P) as [L _].
  assert (0 <= uval x / 2 ^ K) by (apply Z.div_pos; lia).
  assert (100 <= 2 ^ K) by (vm_compute; discriminate).
  apply rv_le; [|nia].
  destruct (Z.eq_dec (div_half_even (uval x) (2 ^ K)) 0) as [->|N]; [now left|right]. nia.
Qed.

(** ** The tax grows with the gross salary *)

Lemma ascending_default : ascending (of_Z 0) tax_brackets = true.
Proof. vm_compute. reflexivity. Qed.

Section Loop.

Local Open Scope float_scope.

Variables (b : bracket) (rest : list bracket) (previous_limit : float).
Hypothesis Hasc : ascending previous_limit (b :: rest) = true.

Lemma ascending_head :
  finite_nonneg previous_limit = true /\ nonneg (limit b) = true
  /\ positive_finite (rate b) = true
  /\ nonneg (limit b - previous_limit) = true
  /\ ascending (limit b) rest = true.
Proof.
  cbn [ascending] in Hasc.
  repeat (apply andb_prop in Hasc as [Hasc ?]). auto.
Qed.

Lemma bracket_tax_mono g g' :
  at_most g g' -> (g >? previous_limit) = true ->
  at_most (bracket_tax b previous_limit g) (bracket_tax b previous_limit g').
Proof.
  intros Hg Hgt.
  destruct ascending_head as (Hp & Hl & Hr & Hw & _).
  destruct Hg as (Ng & Ng' & Hgg).
  unfold Float.gtb in Hgt.
  rewrite ltb_uval in Hgt by (first [assumption | apply finite_nonneg_nonneg; assumption]).
  apply Z.ltb_lt in Hgt.
  unfold bracket_tax.
  apply mul_mono; [|assumption].
  apply min_mono; [|assumption].
  apply sub_mono; [repeat split|..]; assumption.
Qed.

End Loop.

Lemma gtb_mono g g' p :
  at_most g g' -> finite_nonneg p = true -> Float.gtb g p = true -> Float.gtb g' p = true.
Proof.
  intros (Ng & Ng' & H) Hp. unfold Float.gtb.
  rewrite !ltb_uval by (first [assumption | apply finite_nonneg_nonneg; assumption]).
  intros L. apply Z.ltb_lt in L. apply Z.ltb_lt. lia.
Qed.

(** The loop never returns less than the tax accumulated so far. *)
Lemma tax_loop_increases brackets :
  forall g tax previous_limit,
    ascending previous_limit brackets = true ->
    nonneg g = true -> nonneg tax = true ->
    at_most tax (tax_loop brackets g tax previous_limit).
Proof.
  induction brackets as [|b rest IH]; intros g tax p Hasc Hg Ht; cbn [tax_loop].
  - now apply at_most_refl.
  - destruct (ascending_head b rest p Hasc) as (Hp & Hl & Hr & Hw & Hrest).
    destruct (Float.gtb g p) eqn:Hgt.
    + pose proof (bracket_tax_mono b rest p Hasc g g (at_most_refl g Hg) Hgt) as (Na & _).
      fold (bracket_tax b p g).
      pose proof (add_increases tax (bracket_tax b p g) Ht Na) as Hinc.
      destruct (Float.leb g (limit b)); [exact Hinc|].
      eapply at_most_trans; [exact Hinc|].
      apply IH; try assumption. apply Hinc.
    + (* no bracket is entered any more *)
      rewrite tax_loop_idle by exact Hgt. now apply at_most_refl.
Qed.

(** The loop is monotone in the gross salary and in the tax it starts
    from. *)
Lemma tax_loop_mono brackets :
  forall g g' tax tax' previous_limit,
    ascending previous_limit brackets = true ->
    at_most g g' -> at_most tax tax' ->
    at_most (tax_loop brackets g tax previous_limit) (tax_loop brackets g' tax' previous_limit).
Proof.
  induction brackets as [|b rest IH]; intros g g' tax tax' p Hasc Hg Ht.
  - exact Ht.
  - destruct (ascending_head b rest p Hasc) as (Hp & Hl & Hr & Hw & Hrest).
    pose proof Hg as (Ng & Ng' & Hgg). pose proof Ht as (Nt & Nt' & Htt).
    destruct (Float.gtb g p) eqn:Hgt.
    + pose proof (gtb_mono g g' p Hg Hp Hgt) as Hgt'.
      cbn [tax_loop]. rewrite Hgt, Hgt'.
      fold (bracket_tax b p g). fold (bracket_tax b p g').
      pose proof (bracket_tax_mono b rest p Hasc g g' Hg Hgt) as Ha.
      pose proof (add_mono tax tax' _ _ Ht Ha) as Hsum.
      rewrite !leb_uval by assumption.
      destruct (Z.leb_spec (uval g) (uval (limit b))) as [L|L],
               (Z.leb_spec (uval g') (uval (limit b))) as [L'|L']; try lia.
      * exact Hsum.
      * eapply at_most_trans; [exact Hsum|].
        apply tax_loop_increases; try assumption. apply Hsum.
      * now apply IH.
    + rewrite (tax_loop_idle (b :: rest) g tax p Hgt).
      eapply at_most_trans; [exact Ht|].
      now apply tax_loop_increases.
Qed.

(** A valid float that is at least zero is one of the non-negative floats. *)
Lemma nonneg_of_valid g :
  Float.valid g = true -> Float.leb (of_Z 0) g = true -> nonneg g = true.
Proof.
  destruct g as [s|[|]| |[|] m e]; intros V L; try reflexivity; try discriminate L.
  exact V.
Qed.

Lemma nonneg_above g g' :
  nonneg g = true -> Float.valid g' = true -> Float.leb g g' = true -> nonneg g' = true.
Proof.
  intros N V L.
  destruct g' as [s|[|]| |[|] m e]; try reflexivity; try exact V;
    destruct g as [sg|[|]| |[|] mg eg]; try discriminate N; discriminate L.
Qed.

(** C7.  The progressive tax is monotone: for gross amounts
    [0 <= g1 <= g2] the tax of [g1] is at most the tax of [g2].  The
    amounts range over the floats Python can hold, [inf] included; the
    comparisons are those of Python. *)
Theorem progressive_tax_is_monotone (g1 g2 : float) :
  Float.valid g1 = true -> Float.valid g2 = true ->
  Float.leb (of_Z 0) g1 = true -> Float.leb g1 g2 = true ->
  Float.leb (calculate_progressive_tax g1) (calculate_progressive_tax g2) = true.
Proof.
  intros V1 V2 H0 H12.
  pose proof (nonneg_of_valid g1 V1 H0) as N1.
  pose proof (nonneg_above g1 g2 N1 V2 H12) as N2.
  assert (Hg : at_most g1 g2).
  { repeat split; try assumption. rewrite leb_uval in H12 by assumption. now apply Z.leb_le. }
  apply at_most_leb. unfold calculate_progressive_tax, progressive_tax.
  apply round2_mono, tax_loop_mono.
  - exact ascending_default.
  - exact Hg.
  - now apply at_most_refl.
Qed.

Lemma progressive_tax_is_monotone_witness :
  Float.valid (decimal 99999 2) = true /\ Float.valid (of_Z 1000) = true
  /\ Float.leb (of_Z 0) (decimal 99999 2) = true
  /\ Float.leb (decimal 99999 2) (of_Z 1000) = true
  /\ Float.leb (calculate_progressive_tax (decimal 99999 2))
       (calculate_progressive_tax (of_Z 1000)) = true.
Proof.
  assert (V1 : Float.valid (decimal 99999 2) = true) by (vm_compute; reflexivity).
  assert (V2 : Float.valid (of_Z 1000) = true) by (vm_compute; reflexivity).
  assert (H0 : Float.leb (of_Z 0) (decimal 99999 2) = true) by (vm_compute; reflexivity).
  assert (H12 : Float.leb (decimal 99999 2) (of_Z 1000) = true) by (vm_compute; reflexivity).
  split; [exact V1|]. split; [exact V2|]. split; [exact H0|]. split; [exact H12|].
  exact (progressive_tax_is_monotone _ _ V1 V2 H0 H12).
Defined.

(** * Further properties of the code *)

(** ** Extraction *)

Ltac bind_ok H :=
  repeat match type of H with
  | bind ?r _ = Ok _ =>
      let E := fresh "E" in
      destruct r eqn:E; [cbn [bind] in H | discriminate H]
  end.

Lemma select_length {A : Type} (mask : list bool) (l : list A) :
  (List.length (Parser.select mask l) <= List.length l)%nat.
Proof.
  revert l. induction mask as [|b mask IH]; intros [|x l]; simpl; try lia.
  destruct b; simpl; specialize (IH l); lia.
Qed.

(** The leave days counted never exceed the rows of the table. *)
Lemma hours_summary_leave_days df w :
  Parser.hours_summary df = Ok w ->
  0 <= leave_days w <= Z.of_nat (List.length (Parser.rows df)).
Proof.
  unfold Parser.hours_summary. intros H. bind_ok H.
  injection H as <-. cbn [leave_days].
  match goal with
  | |- context [List.length (Parser.select ?m ?l)] => pose proof (select_length m l)
  end. lia.
Qed.

Lemma read_excel_rows f k n df :
  Parser.read_excel f k (Some n) = Ok df -> (List.length (Parser.rows df) <= n)%nat.
Proof.
  unfold Parser.read_excel. destruct f as [|sheets]; [discriminate|].
  destruct (Parser.lookup_sheet "Timesheet" sheets) as [sh|]; [|discriminate].
  destruct (match k with Some k0 => skipn k0 sh | None => sh end) as [|h body];
    intros [= <-]; cbn [Parser.rows]; [simpl; lia|].
  rewrite length_firstn. lia.
Qed.

(** What a successful run of the body of [parse_excel_timesheet] has
    found. *)
Lemma parse_excel_body_ok f ts :
  Parser.parse_excel_body f = Ok ts ->
  (exists df k, Parser.read_excel f None None = Ok df
                /\ Parser.first_row Parser.is_date_anchor (Parser.rows df) 0 = Some k)
  /\ (exists hourly overtime,
        hourly_rate ts = Some hourly /\ overtime_rate ts = Some overtime)
  /\ 0 <= leave_days (hours ts) <= 31.
Proof.
  unfold Parser.parse_excel_body. intros H.
  destruct (Parser.read_excel f None None) as [df|] eqn:Edf; [cbn [bind] in H|discriminate H].
  bind_ok H.
  destruct (Parser.first_row Parser.is_date_anchor (Parser.rows df) 0) as [k|] eqn:A;
    [|discriminate H].
  destruct (Parser.read_excel f (Some k) (Some 32%nat)) as [daily|] eqn:Edaily;
    [cbn [bind] in H|discriminate H].
  destruct (Parser.iloc_row daily 0) as [header|] eqn:Eh; [cbn [bind] in H|discriminate H].
  destruct (Parser.column_index "date" _ 0) as [j|] eqn:C; [|discriminate H].
  cbn [Parser.columns Parser.rows] in H.
  destruct (Parser.hours_summary _) as [w|] eqn:Ew; [cbn [bind] in H|discriminate H].
  bind_ok H. injection H as <-. cbn [hourly_rate overtime_rate hours].
  split; [exists df, k; auto|]. split; [eauto|].
  apply hours_summary_leave_days in Ew. cbn [Parser.rows] in Ew.
  pose proof (read_excel_rows _ _ _ _ Edaily) as R.
  pose proof (filter_length_le (fun r => Parser.notna (nth j r Parser.CNaN))
                (tl (Parser.rows daily))) as F.
  assert (T : (List.length (tl (Parser.rows daily)) <= 31)%nat).
  { unfold Parser.iloc_row in Eh. destruct (Parser.rows daily) as [|h t]; [discriminate Eh|].
    simpl in *. lia. }
  lia.
Qed.

Lemma process_success (fs : Parser.filesystem) (file_path : string) :
  success (Parser.process fs file_path) = true ->
  exists f ts,
    fs file_path = Some f
    /\ (PyStr.lower (PyStr.extension file_path) = ".xlsx"
        \/ PyStr.lower (PyStr.extension file_path) = ".xls")
    /\ Parser.process fs file_path = {| success := true; data := Some ts; error := None |}
    /\ (exists hourly overtime,
          hourly_rate ts = Some hourly /\ overtime_rate ts = Some overtime)
    /\ 0 <= leave_days (hours ts) <= 31.
Proof.
  unfold Parser.process.
  destruct (fs file_path) as [f|]; [|discriminate].
  destruct (String.eqb_spec (PyStr.lower (PyStr.extension file_path)) ".xlsx") as [X|X];
    [|destruct (String.eqb_spec (PyStr.lower (PyStr.extension file_path)) ".xls") as [Y|Y]];
    cbn [orb].
  3: { destruct (String.eqb _ ".pdf"); discriminate. }
  all: unfold Parser.parse_excel_timesheet;
    destruct (Parser.parse_excel_body f) as [ts|e] eqn:B; [|discriminate];
    intros _; exists f, ts;
    destruct (parse_excel_body_ok f ts B) as (_ & R & L);
    cbn [try_except]; auto.
Qed.

(** X1.  A successful extraction: the file exists, its extension is
    [.xlsx] or [.xls] in some capitalisation, the result carries the
    data and no error, both rates are present, and the leave days lie
    between 0 and 31. *)
Theorem successful_extraction (fs : Parser.filesystem) (file_path : string) :
  success (Parser.process fs file_path) = true ->
  exists f ts,
    fs file_path = Some f
    /\ (PyStr.lower (PyStr.extension file_path) = ".xlsx"
        \/ PyStr.lower (PyStr.extension file_path) = ".xls")
    /\ Parser.process fs file_path = {| success := true; data := Some ts; error := None |}
    /\ (exists hourly overtime,
          hourly_rate ts = Some hourly /\ overtime_rate ts = Some overtime)
    /\ 0 <= leave_days (hours ts) <= 31.
Proof. apply process_success. Qed.

Lemma successful_extraction_witness :
  success (Parser.process (Samples.disk Samples.timesheet) Samples.path) = true
  /\ exists ts,
       data (Parser.process (Samples.disk Samples.timesheet) Samples.path) = Some ts
       /\ 0 <= leave_days (hours ts) <= 31.
Proof.
  assert (S : success (Parser.process (Samples.disk Samples.timesheet) Samples.path) = true)
    by (vm_compute; reflexivity).
  split; [exact S|].
  destruct (successful_extraction _ _ S) as (f & ts & _ & _ & P & _ & L).
  exists ts. rewrite P. auto.
Defined.

(** ** The pipeline *)

(** The calculator succeeds on every timesheet that carries both rates. *)
Lemma calculator_succeeds today ts hourly overtime :
  hourly_rate ts = Some hourly -> overtime_rate ts = Some overtime ->
  exists sc, Calculator.process today (Some ts)
             = {| success := true; data := Some sc; error := None |}.
Proof.
  intros Hh Ho. unfold Calculator.process, process_body, calculate_gross_salary.
  rewrite Hh, Ho. cbn [bind try_except]. eexists. reflexivity.
Qed.

Lemma run_outcomes (env : Workflow.environment) (timesheet_file_path : string) :
  let final := Workflow.process_timesheet env timesheet_file_path in
  (Workflow.extraction_status final = "failed"
   /\ Workflow.calculation_status final = "skipped"
   /\ Workflow.generation_status final = "skipped"
   /\ Workflow.workflow_status final = "failed_at_parsing"
   /\ Workflow.timesheet_data final = None
   /\ Workflow.salary_calculation final = None
   /\ Workflow.salary_slip_path final = None)
  \/ (exists ts sc,
        Workflow.timesheet_data final = Some ts
        /\ Workflow.salary_calculation final = Some sc
        /\ Workflow.extraction_status final = "success"
        /\ Workflow.calculation_status final = "success"
        /\ (Workflow.generation_status final = "success"
            /\ Workflow.workflow_status final = "completed"
            \/ Workflow.generation_status final = "failed"
               /\ Workflow.workflow_status final = "failed_at_generation"
               /\ Workflow.salary_slip_path final = None)).
Proof.
  cbv zeta.
  unfold Workflow.process_timesheet, Workflow.invoke, Workflow.agent1_parse_timesheet.
  cbn [Workflow.initial_state Workflow.timesheet_file_path].
  destruct (success (Parser.process (Workflow.files env) timesheet_file_path)) eqn:S.
  - right.
    destruct (process_success _ _ S) as (f & ts & _ & _ & P & (h & o & Hh & Ho) & _).
    rewrite P. cbn [data].
    unfold Workflow.agent2_calculate_salary.
    cbn [Workflow.extraction_status Workflow.timesheet_data String.eqb Ascii.eqb Bool.eqb negb].
    destruct (calculator_succeeds (Workflow.today env) ts h o Hh Ho) as [sc C].
    rewrite C. cbn [success data].
    unfold Workflow.agent3_generate_pdf.
    cbn [Workflow.calculation_status Workflow.timesheet_data Workflow.salary_calculation
         String.eqb Ascii.eqb Bool.eqb negb].
    exists ts, sc.
    destruct (Workflow.gen_success _);
      cbn [Workflow.timesheet_data Workflow.salary_calculation Workflow.extraction_status
           Workflow.calculation_status Workflow.generation_status Workflow.workflow_status
           Workflow.salary_slip_path]; auto 10.
  - left. cbn. auto 10.
Qed.

(** X2.  The outcomes of a run.  Either extraction fails and the two later
    stages are skipped; or extraction and calculation succeed and the
    generator decides between [completed] and [failed_at_generation].
    The calculation never fails after a successful extraction, so the
    status [failed_at_calculation] does not occur. *)
Theorem outcomes_of_a_run (env : Workflow.environment) (timesheet_file_path : string) :
  let final := Workflow.process_timesheet env timesheet_file_path in
  (Workflow.extraction_status final = "failed"
   /\ Workflow.calculation_status final = "skipped"
   /\ Workflow.generation_status final = "skipped"
   /\ Workflow.workflow_status final = "failed_at_parsing"
   /\ Workflow.timesheet_data final = None
   /\ Workflow.salary_calculation final = None
   /\ Workflow.salary_slip_path final = None)
  \/ (exists ts sc,
        Workflow.timesheet_data final = Some ts
        /\ Workflow.salary_calculation final = Some sc
        /\ Workflow.extraction_status final = "success"
        /\ Workflow.calculation_status final = "success"
        /\ (Workflow.generation_status final = "success"
            /\ Workflow.workflow_status final = "completed"
            \/ Workflow.generation_status final = "failed"
               /\ Workflow.workflow_status final = "failed_at_generation"
               /\ Workflow.salary_slip_path final = None)).
Proof. apply run_outcomes. Qed.

(** ** Sheets the parser rejects *)

Lemma iloc_ok df i j :
  (i < List.length (Parser.rows df))%nat -> (j < List.length (Parser.columns df))%nat ->
  exists c, Parser.iloc df i j = Ok c.
Proof.
  intros Hi Hj. unfold Parser.iloc.
  destruct (nth_error (Parser.rows df) i) as [r|] eqn:E.
  - apply Nat.ltb_lt in Hj. rewrite Hj. eexists; reflexivity.
  - apply nth_error_None in E. lia.
Qed.

Lemma employee_rows_ok df idxs d :
  (forall i, In i idxs -> (i < List.length (Parser.rows df))%nat) ->
  (2 <= List.length (Parser.columns df))%nat ->
  exists d', Parser.employee_rows df idxs d = Ok d'.
Proof.
  intros Hr Hc. revert d. induction idxs as [|i idxs IH]; intros d.
  - eexists; reflexivity.
  - cbn [Parser.employee_rows].
    destruct (iloc_ok df i 0) as [c0 E0]; [apply Hr; left; reflexivity | lia |].
    destruct (iloc_ok df i 1) as [c1 E1]; [apply Hr; left; reflexivity | lia |].
    rewrite E0, E1. cbn [bind].
    apply IH. intros k Hk. apply Hr. right. exact Hk.
Qed.



(** The part of [parse_excel_body] before the search for the daily table
    goes through on a sheet with ten rows under its first and two columns. *)
Ltac through_the_prelude df Hdf Hrows Hcols :=
  unfold Parser.parse_excel_timesheet, Parser.parse_excel_body;
  rewrite Hdf; cbn [bind];
  let d := fresh "employee_data" in
  let E := fresh "E" in
  destruct (employee_rows_ok df (seq 0 6) [])
    as [d E];
    [ intros i Hi; apply in_seq in Hi; lia | lia | ];
  rewrite E; cbn [bind];
  let c := fresh "c" in
  destruct (iloc_ok df 8 1) as [c E8]; [lia | lia |];
  rewrite E8; cbn [bind];
  destruct (iloc_ok df 9 1) as [c' E9]; [lia | lia |];
  rewrite E9; cbn [bind].

(** X3.  A sheet without a daily table.  When no row of the first column
    reads [date] in any capitalisation, the extraction fails and returns no
    data; when the sheet has the identity and period rows, the error is the
    message of the [ValueError] raised for it. *)
Theorem sheet_without_daily_table (f : Parser.file) (df : Parser.DataFrame) :
  Parser.read_excel f None None = Ok df ->
  Parser.first_row Parser.is_date_anchor (Parser.rows df) 0 = None ->
  success (Parser.parse_excel_timesheet f) = false
  /\ data (Parser.parse_excel_timesheet f) = None
  /\ ((10 <= List.length (Parser.rows df))%nat ->
      (2 <= List.length (Parser.columns df))%nat ->
      error (Parser.parse_excel_timesheet f)
      = Some "Could not find daily attendance records in timesheet").
Proof.
  intros Hdf Hnone.
  assert (B : exists e, Parser.parse_excel_body f = Raise e).
  { destruct (Parser.parse_excel_body f) as [ts|e] eqn:B; [|eexists; reflexivity].
    destruct (parse_excel_body_ok f ts B) as ((df' & k & Hdf' & Hk) & _).
    rewrite Hdf in Hdf'. injection Hdf' as <-. rewrite Hnone in Hk. discriminate Hk. }
  destruct B as [e B].
  split; [|split].
  - unfold Parser.parse_excel_timesheet. rewrite B. reflexivity.
  - unfold Parser.parse_excel_timesheet. rewrite B. reflexivity.
  - intros Hrows Hcols. clear B.
    through_the_prelude df Hdf Hrows Hcols.
    rewrite Hnone. reflexivity.
Qed.

Lemma sheet_without_daily_table_witness :
  error (Parser.parse_excel_timesheet Cases.no_daily_table)
  = Some "Could not find daily attendance records in timesheet".
Proof.
  assert (R : Parser.read_excel Cases.no_daily_table None None
              = Ok {| Parser.columns := Samples.pair (Parser.CStr "Field") (Parser.CStr "Value");
                      Parser.rows := tl (Samples.identity (Parser.CStr "john.smith@company.com")) |})
    by reflexivity.
  apply (sheet_without_daily_table _ _ R).
  - vm_compute. reflexivity.
  - cbn. lia.
  - cbn. lia.
Defined.



(** ** The generator in the pipeline *)

(** X5.  The workflow hands the generator a timesheet and a calculation or
    does not call it: two generators that agree on such arguments give the
    same final state, whatever they do without them. *)
Theorem generator_is_called_on_complete_input
  (env : Workflow.environment)
  (g : option TimesheetData -> option SalaryCalculation -> Workflow.generator_result)
  (timesheet_file_path : string) :
  (forall ts sc, Workflow.generator env (Some ts) (Some sc) = g (Some ts) (Some sc)) ->
  Workflow.process_timesheet env timesheet_file_path
  = Workflow.process_timesheet
      {| Workflow.files := Workflow.files env; Workflow.today := Workflow.today env;
         Workflow.generator := g |}
      timesheet_file_path.
Proof.
  intros Hg.
  unfold Workflow.process_timesheet, Workflow.invoke, Workflow.agent1_parse_timesheet.
  cbn [Workflow.initial_state Workflow.timesheet_file_path Workflow.files].
  destruct (success (Parser.process (Workflow.files env) timesheet_file_path)) eqn:S.
  - destruct (process_success _ _ S) as (f & ts & _ & _ & P & (h & o & Hh & Ho) & _).
    rewrite P. cbn [data].
    unfold Workflow.agent2_calculate_salary.
    cbn [Workflow.extraction_status Workflow.timesheet_data String.eqb Ascii.eqb Bool.eqb negb
         Workflow.today].
    destruct (calculator_succeeds (Workflow.today env) ts h o Hh Ho) as [sc C].
    rewrite C. cbn [success data].
    unfold Workflow.agent3_generate_pdf.
    cbn [Workflow.calculation_status Workflow.timesheet_data Workflow.salary_calculation
         String.eqb Ascii.eqb Bool.eqb negb Workflow.generator].
    rewrite Hg. reflexivity.
  - reflexivity.
Qed.

Lemma generator_is_called_on_complete_input_witness :
  Workflow.process_timesheet (Cases.office Samples.timesheet Samples.no_generator) Samples.path
  = Workflow.process_timesheet (Cases.office Samples.timesheet Cases.odd_generator) Samples.path.
Proof.
  apply (generator_is_called_on_complete_input
           (Cases.office Samples.timesheet Samples.no_generator) Cases.odd_generator).
  intros ts sc. reflexivity.
Defined.

Lemma run_with_agent3
  (env : Workflow.environment) (output_dir : string)
  (create_salary_slip_pdf : Generator.SalarySlipData -> string -> bool)
  (timesheet_file_path : string) :
  Generator.runs_agent3 output_dir create_salary_slip_pdf (Workflow.generator env) ->
  let final := Workflow.process_timesheet env timesheet_file_path in
  (Workflow.workflow_status final = "completed" ->
   exists ts,
     Workflow.timesheet_data final = Some ts
     /\ Workflow.salary_slip_path final
        = Some (Generator.generate_filename output_dir
                  (employee_id (employee ts)) (name (employee ts))
                  (end_date (period ts))))
  /\ (Workflow.workflow_status final = "failed_at_generation" ->
      Workflow.generation_error final = Some "Failed to generate PDF").
Proof.
  intros Hg. cbv zeta.
  unfold Workflow.process_timesheet, Workflow.invoke, Workflow.agent1_parse_timesheet.
  cbn [Workflow.initial_state Workflow.timesheet_file_path].
  destruct (success (Parser.process (Workflow.files env) timesheet_file_path)) eqn:S.
  - destruct (process_success _ _ S) as (f & ts & _ & _ & P & (h & o & Hh & Ho) & _).
    rewrite P. cbn [data].
    unfold Workflow.agent2_calculate_salary.
    cbn [Workflow.extraction_status Workflow.timesheet_data String.eqb Ascii.eqb Bool.eqb negb].
    destruct (calculator_succeeds (Workflow.today env) ts h o Hh Ho) as [sc C].
    rewrite C. cbn [success data].
    unfold Workflow.agent3_generate_pdf.
    cbn [Workflow.calculation_status Workflow.timesheet_data Workflow.salary_calculation
         String.eqb Ascii.eqb Bool.eqb negb].
    rewrite (Hg ts sc).
    destruct (Generator.process output_dir create_salary_slip_pdf ts sc) as [ok p e] eqn:G.
    unfold Generator.process in G.
    destruct (create_salary_slip_pdf _ _); injection G as <- <- <-;
      cbn [Workflow.gen_success Workflow.file_path Workflow.gen_error
           Workflow.timesheet_data Workflow.workflow_status Workflow.salary_slip_path
           Workflow.generation_error].
    + split; [|intros H; discriminate H]. intros _. exists ts. split; reflexivity.
    + split; [intros H; discriminate H|]. intros _. reflexivity.
  - cbn. split; intros H; discriminate H.
Qed.

(** X6.  A run with agent 3 as its generator.  When it completes, the slip
    path is the file name agent 3 builds from the extracted employee and
    period end; when it fails at generation, the error is the one message
    agent 3 has for a PDF that could not be written. *)
Theorem slip_of_a_completed_run
  (env : Workflow.environment) (output_dir : string)
  (create_salary_slip_pdf : Generator.SalarySlipData -> string -> bool)
  (timesheet_file_path : string) :
  Generator.runs_agent3 output_dir create_salary_slip_pdf (Workflow.generator env) ->
  let final := Workflow.process_timesheet env timesheet_file_path in
  (Workflow.workflow_status final = "completed" ->
   exists ts,
     Workflow.timesheet_data final = Some ts
     /\ Workflow.salary_slip_path final
        = Some (Generator.generate_filename output_dir
                  (employee_id (employee ts)) (name (employee ts))
                  (end_date (period ts))))
  /\ (Workflow.workflow_status final = "failed_at_generation" ->
      Workflow.generation_error final = Some "Failed to generate PDF").
Proof. apply run_with_agent3. Qed.

Lemma slip_of_a_completed_run_witness :
  Workflow.salary_slip_path
    (Workflow.process_timesheet (Cases.office Samples.timesheet Cases.agent3) Samples.path)
  = Some "salary_slips/EMP001_John_Smith_SalarySlip_20251031.pdf".
Proof.
  assert (G : Generator.runs_agent3 "salary_slips" (fun _ _ => true)
                (Workflow.generator (Cases.office Samples.timesheet Cases.agent3)))
    by (intros ts sc; reflexivity).
  assert (C : Workflow.workflow_status
                (Workflow.process_timesheet (Cases.office Samples.timesheet Cases.agent3)
                   Samples.path) = "completed")
    by (vm_compute; reflexivity).
  destruct (slip_of_a_completed_run _ _ _ Samples.path G) as [H _].
  destruct (H C) as (ts & T & P).
  rewrite P.
  assert (T' : Workflow.timesheet_data
                 (Workflow.process_timesheet (Cases.office Samples.timesheet Cases.agent3)
                    Samples.path)
               = Some {| employee := {| employee_id := "EMP001"; name := "John Smith";
                                        department := "Engineering";
                                        designation := "Senior Software Engineer";
                                        email := "john.smith@company.com";
                                        bank_account := "1234567890" |};
                         period := {| start_date := "2025-10-01"; end_date := "2025-10-31" |};
                         hours := hours ts;
                         hourly_rate := hourly_rate ts;
                         overtime_rate := overtime_rate ts |}).
  { rewrite T. f_equal.
    assert (E : Some ts = Workflow.timesheet_data
                 (Workflow.process_timesheet (Cases.office Samples.timesheet Cases.agent3)
                    Samples.path)) by (symmetry; exact T).
    vm_compute in E. injection E as ->. reflexivity. }
  rewrite T in T'. injection T' as ->. reflexivity.
Defined.

(** ** File names of slips *)

Lemma append_cancel (p a b : string) : p ++ a = p ++ b -> a = b.
Proof.
  induction p as [|c p IH]; cbn [append]; intros H; [exact H|].
  injection H as H. apply IH. exact H.
Qed.

Lemma split_at_first (c : ascii) (a b r1 r2 : string) :
  Generator.contains c a = false -> Generator.contains c b = false ->
  a ++ String c r1 = b ++ String c r2 -> a = b /\ r1 = r2.
Proof.
  revert b. induction a as [|x a IH]; intros [|y b] Ha Hb H; cbn [append] in H.
  - injection H as ->. auto.
  - injection H as Hc _. subst y. cbn [Generator.contains] in Hb.
    rewrite Ascii.eqb_refl in Hb. discriminate Hb.
  - injection H as Hc _. subst x. cbn [Generator.contains] in Ha.
    rewrite Ascii.eqb_refl in Ha. discriminate Ha.
  - injection H as -> H. cbn [Generator.contains] in Ha, Hb.
    apply orb_false_iff in Ha as [_ Ha]. apply orb_false_iff in Hb as [_ Hb].
    destruct (IH b Ha Hb H) as [-> ->]. auto.
Qed.

Lemma slip_name_is_relative (employee_id employee_name period_end : string) :
  Generator.contains "/" employee_id = false ->
  PyStr.startswith (Generator.slip_name employee_id employee_name period_end) "/" = false.
Proof.
  intros H. unfold Generator.slip_name.
  destruct employee_id as [|c r]; [reflexivity|].
  cbn [Generator.contains] in H. apply orb_false_iff in H as [H _].
  unfold PyStr.startswith. cbn [append String.prefix].
  destruct (ascii_dec "/" c) as [<-|_]; [|reflexivity].
  rewrite Ascii.eqb_refl in H. discriminate H.
Qed.

Lemma append_assoc (a b c : string) : (a ++ b) ++ c = a ++ b ++ c.
Proof.
  induction a as [|x a IH]; cbn [append]; [reflexivity|]. rewrite IH. reflexivity.
Qed.

Lemma path_join_relative (a b : string) :
  PyStr.startswith b "/" = false ->
  exists p, forall b', PyStr.startswith b' "/" = false -> Generator.path_join a b' = p ++ b'.
Proof.
  intros _. unfold Generator.path_join.
  destruct (String.eqb a "" || Generator.ends_with_slash a)%bool.
  - exists a. intros b' ->. reflexivity.
  - exists (a ++ "/"). intros b' ->. symmetry. apply append_assoc.
Qed.

(** X7.  Slips of different employees do not overwrite one another: in one
    output directory, two different employee ids that contain neither an
    underscore nor a slash give different slip paths, whatever the names
    and period ends. *)
Theorem slip_paths_tell_employees_apart
  (output_dir id1 name1 end1 id2 name2 end2 : string) :
  Generator.contains "_" id1 = false -> Generator.contains "/" id1 = false ->
  Generator.contains "_" id2 = false -> Generator.contains "/" id2 = false ->
  String.eqb id1 id2 = false ->
  Generator.generate_filename output_dir id1 name1 end1
  <> Generator.generate_filename output_dir id2 name2 end2.
Proof.
  intros U1 S1 U2 S2 D H. unfold Generator.generate_filename in H.
  pose proof (slip_name_is_relative id1 name1 end1 S1) as R1.
  pose proof (slip_name_is_relative id2 name2 end2 S2) as R2.
  destruct (path_join_relative output_dir _ R1) as [p Hp].
  rewrite (Hp _ R1), (Hp _ R2) in H.
  apply append_cancel in H. unfold Generator.slip_name in H.
  cbn [append] in H.
  destruct (split_at_first "_" id1 id2 _ _ U1 U2 H) as [E _].
  subst id2. rewrite String.eqb_refl in D. discriminate D.
Qed.

Lemma slip_paths_tell_employees_apart_witness :
  Generator.generate_filename "salary_slips" "EMP001" "John Smith" "2025-10-31"
  <> Generator.generate_filename "salary_slips" "EMP002" "John Smith" "2025-10-31".
Proof.
  apply (slip_paths_tell_employees_apart "salary_slips" "EMP001" "John Smith" "2025-10-31"
           "EMP002" "John Smith" "2025-10-31"); reflexivity.
Defined.

(** ** The batch run *)

Lemma process_each_spec (env : Workflow.environment) (timesheet_files : list string)
  (results : list Main.entry) (successful failed : Z) :
  let run := fun p => Main.entry_of p (Workflow.process_timesheet env p) in
  let completed := fun r => String.eqb (Main.status r) "completed" in
  Main.process_each env timesheet_files results successful failed
  = ((results ++ map run timesheet_files)%list,
     successful + Z.of_nat (List.length (filter completed (map run timesheet_files))),
     failed + Z.of_nat (List.length (filter (fun r => negb (completed r))
                                            (map run timesheet_files)))).
Proof.
  intros run completed.
  revert results successful failed.
  induction timesheet_files as [|p rest IH]; intros results successful failed.
  - cbn. rewrite app_nil_r, !Z.add_0_r. reflexivity.
  - cbn [Main.process_each map filter].
    assert (C : completed (run p)
                = String.eqb (Workflow.workflow_status (Workflow.process_timesheet env p))
                             "completed") by reflexivity.
    rewrite C. fold (run p).
    destruct (String.eqb (Workflow.workflow_status (Workflow.process_timesheet env p))
                         "completed");
      rewrite IH, <- app_assoc; cbn [app negb List.length];
      rewrite Nat2Z.inj_succ, <- Z.add_1_l, Z.add_assoc; reflexivity.
Qed.

(** X8.  The counts of a batch.  [results] has one entry per file, in the
    order of the files and under their base names; [successful] is the
    number of entries with status [completed], and [successful] and
    [failed] add up to the number of files. *)
Theorem counts_of_a_batch (env : Workflow.environment) (timesheet_files : list string)
  (results : list Main.entry) (successful failed : Z) :
  Main.process_all_timesheets env timesheet_files = Some (results, successful, failed) ->
  map Main.file results = map Main.basename timesheet_files
  /\ successful
     = Z.of_nat (List.length
                   (filter (fun r => String.eqb (Main.status r) "completed") results))
  /\ 0 <= failed
  /\ successful + failed = Z.of_nat (List.length timesheet_files)
  /\ 0 < Z.of_nat (List.length timesheet_files).
Proof.
  intros H.
  assert (E : Main.process_each env timesheet_files [] 0 0 = (results, successful, failed)
              /\ (0 < List.length timesheet_files)%nat).
  { unfold Main.process_all_timesheets in H.
    destruct timesheet_files as [|p rest]; [discriminate H|].
    injection H as H. split; [exact H | cbn [List.length]; lia]. }
  clear H. destruct E as [E N].
  rewrite process_each_spec in E. cbv zeta in E. cbn [app] in E.
  set (rs := map (fun p => Main.entry_of p (Workflow.process_timesheet env p))
                 timesheet_files) in E.
  assert (L : List.length rs = List.length timesheet_files) by (unfold rs; apply length_map).
  pose proof (filter_length (fun r => String.eqb (Main.status r) "completed") rs) as F.
  cbv beta in F.
  injection E as <- <- <-.
  split; [|split; [|split; [|split]]].
  - unfold rs. rewrite map_map. reflexivity.
  - lia.
  - lia.
  - lia.
  - lia.
Qed.

Lemma counts_of_a_batch_witness :
  exists results successful failed,
    Main.process_all_timesheets (Cases.office Samples.timesheet Cases.agent3)
      [Samples.path; "timesheets/excel/missing.xlsx"]
    = Some (results, successful, failed)
    /\ successful + failed = 2.
Proof.
  destruct (Main.process_all_timesheets (Cases.office Samples.timesheet Cases.agent3)
              [Samples.path; "timesheets/excel/missing.xlsx"])
    as [[[results successful] failed]|] eqn:E; [|discriminate E].
  exists results, successful, failed. split; [reflexivity|].
  exact (proj1 (proj2 (proj2 (proj2 (counts_of_a_batch _ _ _ _ _ E))))).
Defined.

(** X9.  The entries of a batch with agent 3 as the generator.  Every
    entry is of one of three kinds: completed, with the path of a slip;
    failed at generation, without one; or failed at parsing, without one,
    under the name [N/A] and with a net salary of zero.  So the summary
    finds a slip path on each entry it prints one for. *)
Theorem entries_of_a_batch (env : Workflow.environment) (output_dir : string)
  (create_salary_slip_pdf : Generator.SalarySlipData -> string -> bool)
  (timesheet_files : list string)
  (results : list Main.entry) (successful failed : Z) :
  Generator.runs_agent3 output_dir create_salary_slip_pdf (Workflow.generator env) ->
  Main.process_all_timesheets env timesheet_files = Some (results, successful, failed) ->
  Forall (fun r =>
            (Main.status r = "completed" /\ exists path, Main.salary_slip r = Some path)
            \/ (Main.status r = "failed_at_generation" /\ Main.salary_slip r = None)
            \/ (Main.status r = "failed_at_parsing" /\ Main.salary_slip r = None
                /\ Main.employee_name r = "N/A" /\ Main.entry_net_salary r = of_Z 0))
         results.
Proof.
  intros G H.
  assert (E : Main.process_each env timesheet_files [] 0 0 = (results, successful, failed)).
  { unfold Main.process_all_timesheets in H.
    destruct timesheet_files as [|p rest]; [discriminate H|].
    injection H as H. exact H. }
  clear H. rewrite process_each_spec in E. cbv zeta in E. cbn [app] in E.
  assert (R : results = map (fun p => Main.entry_of p (Workflow.process_timesheet env p))
                            timesheet_files).
  { set (a := 0 + _) in E. set (b := 0 + _) in E. clearbody a b.
    injection E as <- _ _. reflexivity. }
  clear E. subst results. apply Forall_map. apply Forall_forall. intros p _.
  unfold Main.entry_of.
  cbn [Main.status Main.salary_slip Main.employee_name Main.entry_net_salary].
  destruct (run_with_agent3 env output_dir create_salary_slip_pdf p G) as [C _].
  destruct (run_outcomes env p) as [(_ & _ & _ & W & T & S & P) | (ts & sc & _ & _ & _ & _ & O)].
  - right. right. rewrite W, T, S, P. auto.
  - destruct O as [[_ W] | (_ & W & P)].
    + left. split; [exact W|]. destruct (C W) as (ts' & _ & P). rewrite P. eexists. reflexivity.
    + right. left. auto.
Qed.

Lemma entries_of_a_batch_witness :
  exists results successful failed,
    Main.process_all_timesheets (Cases.office Samples.timesheet Cases.agent3)
      [Samples.path; "timesheets/excel/missing.xlsx"]
    = Some (results, successful, failed)
    /\ Forall (fun r => Main.status r = "completed" -> Main.salary_slip r <> None) results.
Proof.
  destruct (Main.process_all_timesheets (Cases.office Samples.timesheet Cases.agent3)
              [Samples.path; "timesheets/excel/missing.xlsx"])
    as [[[results successful] failed]|] eqn:E; [|discriminate E].
  exists results, successful, failed. split; [reflexivity|].
  pose proof (entries_of_a_batch (Cases.office Samples.timesheet Cases.agent3)
                "salary_slips" (fun _ _ => true) _ _ _ _
                (fun ts sc => eq_refl) E) as F.
  apply Forall_impl with (2 := F). intros r [[_ [path P]] | [[S _] | [S _]]] C.
  - rewrite P. discriminate.
  - rewrite S in C. discriminate C.
  - rewrite S in C. discriminate C.
Defined.

(** ** Amounts of the calculator *)

(** A float Python can hold is at least zero, or not greater than zero. *)
Lemma nonneg_or_idle g :
  Float.valid g = true -> nonneg g = true \/ Float.gtb g (of_Z 0) = false.
Proof.
  intros V. destruct g as [s|[|]| |[|] m e]; try (left; reflexivity); try (right; reflexivity).
  left. exact V.
Qed.

Lemma at_most_of_leb g g' :
  Float.valid g = true -> Float.valid g' = true ->
  Float.leb (of_Z 0) g = true -> Float.leb g g' = true -> at_most g g'.
Proof.
  intros V V' H0 H.
  pose proof (nonneg_of_valid g V H0) as N.
  pose proof (nonneg_above g g' N V' H) as N'.
  repeat split; try assumption.
  rewrite leb_uval in H by assumption. now apply Z.leb_le.
Qed.

Lemma positive_finite_of_ltb r :
  Float.valid r = true -> Float.ltb (of_Z 0) r = true -> Float.ltb r infinity = true ->
  positive_finite r = true.
Proof.
  intros V P F. destruct r as [s|[|]| |[|] m e];
    try discriminate P; try discriminate F. exact V.
Qed.

(** X10.  The income tax is never negative and never NaN: for every float
    Python can hold as the gross salary, NaN and the infinities included,
    the tax compares at least zero. *)
Theorem tax_is_never_negative (gross_salary : float) :
  Float.valid gross_salary = true ->
  Float.leb (of_Z 0) (calculate_progressive_tax gross_salary) = true.
Proof.
  intros V. unfold calculate_progressive_tax, progressive_tax.
  destruct (nonneg_or_idle gross_salary V) as [N|I].
  - change (of_Z 0) with (round2 zero) at 1.
    apply at_most_leb, round2_mono, tax_loop_increases.
    + exact ascending_default.
    + exact N.
    + reflexivity.
  - rewrite tax_loop_idle by exact I. reflexivity.
Qed.

Lemma tax_is_never_negative_witness :
  Float.leb (of_Z 0) (calculate_progressive_tax nan) = true
  /\ Float.leb (of_Z 0) (calculate_progressive_tax infinity) = true.
Proof.
  split.
  - apply (tax_is_never_negative nan). reflexivity.
  - apply (tax_is_never_negative infinity). reflexivity.
Defined.

Lemma rates_are_positive :
  positive_finite social_security_rate = true
  /\ positive_finite medicare_rate = true
  /\ positive_finite provident_fund_rate = true
  /\ positive_finite (decimal 5 1) = true.
Proof. vm_compute. auto. Qed.

Lemma tax_mono g g' :
  at_most g g' -> at_most (calculate_progressive_tax g) (calculate_progressive_tax g').
Proof.
  intros H. unfold calculate_progressive_tax, progressive_tax.
  apply round2_mono, tax_loop_mono.
  - exact ascending_default.
  - exact H.
  - apply at_most_refl. reflexivity.
Qed.

(** X11.  The deductions are monotone in the gross salary: for gross
    salaries [0 <= g <= g'] the income tax, the social security,
    the provident fund and the total deductions of [g] are at most those
    of [g'], in Python's comparison. *)
Theorem deductions_are_monotone (g g' : float) :
  Float.valid g = true -> Float.valid g' = true ->
  Float.leb (of_Z 0) g = true -> Float.leb g g' = true ->
  Float.leb (income_tax (calculate_deductions g)) (income_tax (calculate_deductions g')) = true
  /\ Float.leb (social_security (calculate_deductions g))
       (social_security (calculate_deductions g')) = true
  /\ Float.leb (provident_fund (calculate_deductions g))
       (provident_fund (calculate_deductions g')) = true
  /\ Float.leb (total_deductions (calculate_deductions g))
       (total_deductions (calculate_deductions g')) = true.
Proof.
  intros V V' H0 H.
  pose proof (at_most_of_leb g g' V V' H0 H) as A.
  destruct rates_are_positive as (Ps & Pm & Pp & _).
  pose proof (tax_mono g g' A) as T.
  assert (F : at_most (Float.add (Float.mul g social_security_rate) (Float.mul g medicare_rate))
                (Float.add (Float.mul g' social_security_rate)
                           (Float.mul g' medicare_rate)))
    by (apply add_mono; apply mul_mono; assumption).
  assert (Pf : at_most (Float.mul g provident_fund_rate) (Float.mul g' provident_fund_rate))
    by (apply mul_mono; assumption).
  unfold calculate_deductions.
  cbn [income_tax social_security provident_fund total_deductions].
  split; [|split; [|split]]; apply at_most_leb, round2_mono.
  - exact T.
  - exact F.
  - exact Pf.
  - apply add_mono; [apply add_mono; [apply add_mono; [apply add_mono|]|]|].
    + exact T.
    + exact F.
    + apply at_most_refl. reflexivity.
    + exact Pf.
    + apply at_most_refl. reflexivity.
Qed.

Lemma deductions_are_monotone_witness :
  Float.leb (total_deductions (calculate_deductions (of_Z 2500)))
    (total_deductions (calculate_deductions (decimal 250001 2))) = true.
Proof.
  apply (deductions_are_monotone (of_Z 2500) (decimal 250001 2)); vm_compute; reflexivity.
Defined.

(** ** Gross pay *)

Lemma add_increases_r t a : nonneg t = true -> nonneg a = true -> at_most a (Float.add t a).
Proof.
  intros Ht Ha. destruct (add_spec t a Ht Ha) as [N U].
  repeat split; try assumption. rewrite U, <- (rv_float a Ha) at 1.
  apply rv_le; [apply uval_zero_or_large; assumption|].
  pose proof (uval_nonneg t Ht). lia.
Qed.

Lemma payable_positive_finite r : payable r = true -> positive_finite r = true.
Proof.
  unfold payable. intros H.
  apply andb_true_iff in H as [H F]. apply andb_true_iff in H as [V P].
  now apply positive_finite_of_ltb.
Qed.

Lemma countable_nonneg h : countable h = true -> nonneg h = true.
Proof.
  unfold countable. intros H. apply andb_true_iff in H as [V P].
  now apply nonneg_of_valid.
Qed.

Lemma countable_at_most h h' :
  countable h = true -> countable h' = true -> Float.leb h h' = true -> at_most h h'.
Proof.
  intros C C' L. pose proof (countable_nonneg h C) as N.
  pose proof (countable_nonneg h' C') as N'.
  repeat split; try assumption.
  rewrite leb_uval in L by assumption. now apply Z.leb_le.
Qed.

Lemma bonus_mono h h' : at_most h h' -> at_most (bonus_of h) (bonus_of h').
Proof.
  intros (N & N' & L). unfold bonus_of, Float.geb. fold (Float.leb (of_Z 160) h).
  fold (Float.leb (of_Z 160) h').
  assert (N160 : nonneg (of_Z 160) = true) by reflexivity.
  rewrite !leb_uval by assumption.
  destruct (uval (of_Z 160) <=? uval h) eqn:E.
  - apply Z.leb_le in E.
    assert (E' : (uval (of_Z 160) <=? uval h') = true) by (apply Z.leb_le; lia).
    rewrite E'. apply at_most_refl. reflexivity.
  - destruct (uval (of_Z 160) <=? uval h').
    + repeat split. vm_compute. discriminate.
    + apply at_most_refl. reflexivity.
Qed.

Lemma bonus_nonneg h : nonneg (bonus_of h) = true.
Proof. unfold bonus_of. destruct (Float.geb h (of_Z 160)); reflexivity. Qed.

Lemma Ok_inj {A : Type} (x y : A) : Ok x = Ok y -> x = y.
Proof. intros H. injection H as H. exact H. Qed.

Section Gross.

Variables hourly overtime : float.
Hypothesis hourly_payable : payable hourly = true.
Hypothesis overtime_payable : payable overtime = true.

Let half : float := decimal 5 1.

(** The five amounts before rounding. *)
Let base (w : WorkingHours) : float := Float.mul (regular_hours w) hourly.
Let extra (w : WorkingHours) : float := Float.mul (overtime_hours w) overtime.
Let holiday (w : WorkingHours) : float :=
  Float.mul (Float.mul (holiday_work_hours w) hourly) half.
Let total (w : WorkingHours) : float :=
  Float.add (Float.add (Float.add (Float.add (base w) (extra w)) (holiday w)) (of_Z 500))
            (bonus_of (regular_hours w)).

Lemma gross_of (w : WorkingHours) :
  calculate_gross_salary (sheet_of w hourly overtime)
  = Ok {| base_pay := round2 (base w);
          overtime_pay := round2 (extra w);
          allowances := round2 (Float.add (of_Z 500) (holiday w));
          bonuses := round2 (bonus_of (regular_hours w));
          total_gross := round2 (total w) |}.
Proof. reflexivity. Qed.

Lemma half_positive : positive_finite half = true.
Proof. reflexivity. Qed.

Lemma amounts_mono (w w' : WorkingHours) :
  worked w = true -> worked w' = true -> fewer_hours w w' = true ->
  at_most (base w) (base w') /\ at_most (extra w) (extra w')
  /\ at_most (holiday w) (holiday w')
  /\ at_most (bonus_of (regular_hours w)) (bonus_of (regular_hours w')).
Proof.
  unfold worked, fewer_hours. intros W W' F.
  apply andb_true_iff in W as [W Wh]. apply andb_true_iff in W as [Wr Wo].
  apply andb_true_iff in W' as [W' Wh']. apply andb_true_iff in W' as [Wr' Wo'].
  apply andb_true_iff in F as [F Fh]. apply andb_true_iff in F as [Fr Fo].
  pose proof (payable_positive_finite _ hourly_payable) as Ph.
  pose proof (payable_positive_finite _ overtime_payable) as Po.
  pose proof (countable_at_most _ _ Wr Wr' Fr) as Ar.
  pose proof (countable_at_most _ _ Wo Wo' Fo) as Ao.
  pose proof (countable_at_most _ _ Wh Wh' Fh) as Ah.
  split; [|split; [|split]].
  - apply mul_mono; assumption.
  - apply mul_mono; assumption.
  - apply mul_mono; [apply mul_mono; assumption | exact half_positive].
  - apply bonus_mono. exact Ar.
Qed.

Lemma gross_mono (w w' : WorkingHours) :
  worked w = true -> worked w' = true -> fewer_hours w w' = true ->
  forall g g',
    calculate_gross_salary (sheet_of w hourly overtime) = Ok g ->
    calculate_gross_salary (sheet_of w' hourly overtime) = Ok g' ->
    Float.leb (base_pay g) (base_pay g') = true
    /\ Float.leb (overtime_pay g) (overtime_pay g') = true
    /\ Float.leb (allowances g) (allowances g') = true
    /\ Float.leb (bonuses g) (bonuses g') = true
    /\ Float.leb (total_gross g) (total_gross g') = true.
Proof.
  intros W W' F g g' G G'.
  destruct (amounts_mono w w' W W' F) as (Ab & Ae & Ah & An).
  rewrite gross_of in G, G'. apply Ok_inj in G, G'. subst g g'.
  cbn [base_pay overtime_pay allowances bonuses total_gross].
  split; [|split; [|split; [|split]]]; apply at_most_leb, round2_mono.
  - exact Ab.
  - exact Ae.
  - apply add_mono; [apply at_most_refl; reflexivity | exact Ah].
  - exact An.
  - unfold total. repeat apply add_mono; try assumption.
    apply at_most_refl. reflexivity.
Qed.

Lemma gross_floor (w : WorkingHours) :
  worked w = true ->
  forall g,
    calculate_gross_salary (sheet_of w hourly overtime) = Ok g ->
    Float.leb (of_Z 500) (allowances g) = true
    /\ Float.leb (of_Z 500) (total_gross g) = true.
Proof.
  intros W g G.
  destruct (amounts_mono w w W W) as (Ab & Ae & Ah & An).
  { unfold worked, countable in W. unfold fewer_hours.
    apply andb_true_iff in W as [W Wh]. apply andb_true_iff in W as [Wr Wo].
    apply andb_true_iff in Wh as [Vh Wh]. apply andb_true_iff in Wr as [Vr Wr].
    apply andb_true_iff in Wo as [Vo Wo].
    pose proof (nonneg_of_valid _ Vh Wh) as Nh.
    pose proof (nonneg_of_valid _ Vr Wr) as Nr.
    pose proof (nonneg_of_valid _ Vo Wo) as No.
    rewrite !(at_most_leb _ _ (at_most_refl _ Nh)), !(at_most_leb _ _ (at_most_refl _ Nr)),
      !(at_most_leb _ _ (at_most_refl _ No)). reflexivity. }
  destruct Ab as (Nb & _ & _). destruct Ae as (Ne & _ & _).
  destruct Ah as (Nh & _ & _). destruct An as (Nn & _ & _).
  rewrite gross_of in G. apply Ok_inj in G. subst g.
  cbn [allowances total_gross].
  assert (N500 : nonneg (of_Z 500) = true) by reflexivity.
  assert (R : round2 (of_Z 500) = of_Z 500) by (vm_compute; reflexivity).
  split; rewrite <- R at 1; apply at_most_leb, round2_mono.
  - apply add_increases; assumption.
  - unfold total.
    destruct (add_spec (base w) (extra w) Nb Ne) as [N1 _].
    destruct (add_spec _ (holiday w) N1 Nh) as [N2 _].
    apply at_most_trans with (Float.add (Float.add (Float.add (base w) (extra w)) (holiday w))
                                        (of_Z 500)).
    + apply add_increases_r; assumption.
    + apply add_increases; [|assumption].
      apply (add_spec _ (of_Z 500) N2 N500).
Qed.

End Gross.

Lemma gross_depends_on_hours_and_rates ts hourly overtime :
  hourly_rate ts = Some hourly -> overtime_rate ts = Some overtime ->
  calculate_gross_salary ts = calculate_gross_salary (sheet_of (hours ts) hourly overtime).
Proof.
  intros Hh Ho. unfold calculate_gross_salary, sheet_of.
  cbn [hourly_rate overtime_rate hours]. rewrite Hh, Ho. reflexivity.
Qed.

(** X12.  More hours never pay less.  For two timesheets with the same
    positive finite rates, whose hours are at least zero and are in each
    of the three amounts at most those of the second, both gross salaries
    are computed, and the base pay, the overtime pay, the allowances, the
    bonuses and the total gross of the first are at most those of the
    second, in Python's comparison. *)
Theorem gross_is_monotone_in_hours (ts ts' : TimesheetData) (hourly overtime : float) :
  hourly_rate ts = Some hourly -> overtime_rate ts = Some overtime ->
  hourly_rate ts' = Some hourly -> overtime_rate ts' = Some overtime ->
  payable hourly = true -> payable overtime = true ->
  worked (hours ts) = true -> worked (hours ts') = true ->
  fewer_hours (hours ts) (hours ts') = true ->
  exists g g',
    calculate_gross_salary ts = Ok g /\ calculate_gross_salary ts' = Ok g'
    /\ Float.leb (base_pay g) (base_pay g') = true
    /\ Float.leb (overtime_pay g) (overtime_pay g') = true
    /\ Float.leb (allowances g) (allowances g') = true
    /\ Float.leb (bonuses g) (bonuses g') = true
    /\ Float.leb (total_gross g) (total_gross g') = true.
Proof.
  intros Hh Ho Hh' Ho' Ph Po W W' F.
  rewrite (gross_depends_on_hours_and_rates ts hourly overtime Hh Ho).
  rewrite (gross_depends_on_hours_and_rates ts' hourly overtime Hh' Ho').
  rewrite !gross_of.
  eexists; eexists. split; [reflexivity|]. split; [reflexivity|].
  apply (gross_mono hourly overtime Ph Po (hours ts) (hours ts') W W' F); apply gross_of.
Qed.

Lemma gross_is_monotone_in_hours_witness :
  exists g g',
    calculate_gross_salary
      (sheet_of {| regular_hours := of_Z 152; overtime_hours := of_Z 10;
                   leave_days := 1; holiday_work_hours := of_Z 8 |}
                (of_Z 45) (decimal 675 1)) = Ok g
    /\ calculate_gross_salary
         (sheet_of {| regular_hours := of_Z 160; overtime_hours := of_Z 10;
                      leave_days := 0; holiday_work_hours := of_Z 8 |}
                   (of_Z 45) (decimal 675 1)) = Ok g'
    /\ Float.leb (total_gross g) (total_gross g') = true.
Proof.
  destruct (gross_is_monotone_in_hours
              (sheet_of {| regular_hours := of_Z 152; overtime_hours := of_Z 10;
                           leave_days := 1; holiday_work_hours := of_Z 8 |}
                        (of_Z 45) (decimal 675 1))
              (sheet_of {| regular_hours := of_Z 160; overtime_hours := of_Z 10;
                           leave_days := 0; holiday_work_hours := of_Z 8 |}
                        (of_Z 45) (decimal 675 1))
              (of_Z 45) (decimal 675 1))
    as (g & g' & G & G' & _ & _ & _ & _ & T);
    try reflexivity; try (vm_compute; reflexivity).
  exists g, g'. auto.
Defined.

(** X13.  The gross salary covers the allowance.  For positive finite rates
    and hours that are at least zero, the gross salary is computed, and its
    allowances and its total are at least the fixed allowance of 500. *)
Theorem gross_covers_the_allowance (ts : TimesheetData) (hourly overtime : float) :
  hourly_rate ts = Some hourly -> overtime_rate ts = Some overtime ->
  payable hourly = true -> payable overtime = true ->
  worked (hours ts) = true ->
  exists g,
    calculate_gross_salary ts = Ok g
    /\ Float.leb (of_Z 500) (allowances g) = true
    /\ Float.leb (of_Z 500) (total_gross g) = true.
Proof.
  intros Hh Ho Ph Po W.
  rewrite (gross_depends_on_hours_and_rates ts hourly overtime Hh Ho).
  rewrite gross_of. eexists. split; [reflexivity|].
  apply (gross_floor hourly overtime Ph Po (hours ts) W). apply gross_of.
Qed.

Lemma gross_covers_the_allowance_witness :
  exists g,
    calculate_gross_salary
      (sheet_of {| regular_hours := of_Z 0; overtime_hours := of_Z 0;
                   leave_days := 22; holiday_work_hours := of_Z 0 |}
                (of_Z 45) (decimal 675 1)) = Ok g
    /\ Float.leb (of_Z 500) (total_gross g) = true.
Proof.
  destruct (gross_covers_the_allowance
              (sheet_of {| regular_hours := of_Z 0; overtime_hours := of_Z 0;
                           leave_days := 22; holiday_work_hours := of_Z 0 |}
                        (of_Z 45) (decimal 675 1))
              (of_Z 45) (decimal 675 1))
    as (g & G & _ & T);
    try reflexivity; try (vm_compute; reflexivity).
  exists g. auto.
Defined.

(** ** Reading back a written sheet *)

Section ReadBack.

Variable show : float -> string.



















End ReadBack.




(** ** From a written sheet to the slip *)


Section Suffix.






End Suffix.





(** X16.  When the calculator fails.  On a timesheet it succeeds exactly
    when both rates are present; when one is missing it returns no data and
    the message of the [TypeError] that the product with [None] raises. *)
Theorem calculator_needs_both_rates (today : string) (ts : TimesheetData) :
  (success (Calculator.process today (Some ts)) = true
   <-> hourly_rate ts <> None /\ overtime_rate ts <> None)
  /\ (success (Calculator.process today (Some ts)) = false ->
      data (Calculator.process today (Some ts)) = None
      /\ error (Calculator.process today (Some ts))
         = Some "unsupported operand type(s) for *: 'float' and 'NoneType'").
Proof.
  unfold Calculator.process, process_body, calculate_gross_salary.
  destruct (hourly_rate ts) as [h|], (overtime_rate ts) as [o|];
    cbn [bind try_except success data error mul_none exn_msg TypeError].
  - split; [split; [intros _; split; discriminate | reflexivity] | intros H; discriminate H].
  - split; [split; [intros H; discriminate H | intros [_ H]; now elim H] | auto].
  - split; [split; [intros H; discriminate H | intros [H _]; now elim H] | auto].
  - split; [split; [intros H; discriminate H | intros [H _]; now elim H] | auto].
Qed.

Lemma calculator_needs_both_rates_witness :
  data (Calculator.process "2025-11-01" (Some Cases.unpaid)) = None
  /\ error (Calculator.process "2025-11-01" (Some Cases.unpaid))
     = Some "unsupported operand type(s) for *: 'float' and 'NoneType'".
Proof.
  apply (proj2 (calculator_needs_both_rates "2025-11-01" Cases.unpaid)). reflexivity.
Defined.
